(** * Span-lifecycle bridge of the YDB driver tracing adapter

    A shallow embedding of the handler constructors [Scripting]
    (scripting.go) and [Retry] (retry.go), which turn the driver's
    start / intermediate / done callbacks into tracing spans, together
    with the properties of the resulting continuation chains.

    Go closures become Rocq functions in a state monad over the tracer;
    a nil-able handler field becomes an [option]; the Go [error]
    interface becomes an optional error text. *)

From Stdlib Require Import ZArith String List Lia.
From stdpp Require Import base list list_numbers pretty.
Set Warnings "-register-all".
Import ListNotations.

Local Open Scope Z_scope.
Local Open Scope list_scope.

(** ** Values exchanged with the tracer *)

(** A Go [error]: [None] is the nil error, [Some msg] a non-nil error whose
    [Error()] text is [msg]. *)
Definition error : Type := option string.

(** Attribute values: the three constructors used by the handlers. *)
Inductive AttrValue : Type :=
| VString (s : string)
| VBool (b : bool)
| VInt (n : Z).

Record KeyValue : Type := KV { Key : string; Value : AttrValue }.

(** [otlog.String(key, value)]. *)
Module otlog.
Definition String (key value : string) : KeyValue := KV key (VString value).
End otlog.

(** [attribute.Bool(key, value)] and [attribute.Int(key, value)]. *)
Module attribute.
Definition Bool (key : string) (value : bool) : KeyValue := KV key (VBool value).
Definition Int (key : string) (value : Z) : KeyValue := KV key (VInt value).
End attribute.

(** A span handle; handles are allocated in order by the tracer. *)
Abbreviation Span := nat (only parsing).

(** The ambient context carries the span that is active in it, if any. *)
Definition Context : Type := option Span.

(** Running status of an [OperationSpan] (spec, section 3). *)
Inductive RunStatus : Type := Opened | Streaming | Closed.

Record OperationSpan : Type := mkSpan {
  kind : string;
  parent : Context;
  running : RunStatus
}.

(** Terminal status of a span. *)
Inductive Status : Type :=
| StatusOK
| StatusError (msg : string).

(** What an observing tracer records. *)
Inductive TraceEvent : Type :=
| EvOpen (s : Span) (ctx : Context) (name : string) (attrs : list KeyValue)
| EvAnnotate (s : Span) (attrs : list KeyValue)
| EvClose (s : Span) (st : Status) (attrs : list KeyValue).

Record Tracer : Type := mkTracer {
  spans : list OperationSpan;
  log : list TraceEvent
}.

Definition empty_tracer : Tracer := mkTracer [] [].

(** ** The tracer state monad *)

Definition M (A : Type) : Type := Tracer -> A * Tracer.

Definition ret {A : Type} (a : A) : M A := fun t => (a, t).

Definition bind {A B : Type} (m : M A) (k : A -> M B) : M B :=
  fun t => let (a, t') := m t in k a t'.

Notation "x <- c1 ;; c2" := (bind c1 (fun x => c2))
  (at level 100, c1 at next level, right associativity).
Notation "c1 ;; c2" := (bind c1 (fun _ => c2))
  (at level 100, right associativity).

(** Final tracer state and result of a computation. *)
Definition exec {A : Type} (m : M A) (t : Tracer) : Tracer := snd (m t).
Definition eval {A : Type} (m : M A) (t : Tracer) : A := fst (m t).

(** ** Attribute / status mapper *)

(** Modelled from the spec: the status mapping applied when a span is closed
    (part of [finish], not under src/): "Status is derived strictly from error
    presence: absent => OK, present => Error with message". *)
Definition status_of_error (err : error) : Status :=
  match err with
  | None => StatusOK
  | Some msg => StatusError msg
  end.

(** Modelled from the spec: the attributes of a non-terminal span event
    (part of [intermediate], not under src/): "error presence => boolean
    "error" attribute; non-nil error => message attribute = error text". *)
Definition error_attrs (err : error) : list KeyValue :=
  match err with
  | None => [attribute.Bool "error" false]
  | Some msg => [attribute.Bool "error" true; otlog.String "message" msg]
  end.

(** ** Tracer adapter *)

(** Whether a running status is [Closed]. *)
Definition is_closed (r : RunStatus) : bool :=
  match r with
  | Closed => true
  | _ => false
  end.

(** The span [sp] moved to running status [r]. *)
Definition set_running (r : RunStatus) (sp : OperationSpan) : OperationSpan :=
  mkSpan (kind sp) (parent sp) r.

(** Modelled from the spec: the tracer adapter's
    [open(parentContext, name, attributes) -> (span, childContext)]
    (section 4.4, not under src/).  The new span is created in status
    [Opened] and the child context has it as its active span. *)
Definition open_span (ctx : Context) (name : string) (attrs : list KeyValue)
  : M (Span * Context) :=
  fun t =>
    let s := length (spans t) in
    ((s, Some s),
     mkTracer (spans t ++ [mkSpan name ctx Opened])
              (log t ++ [EvOpen s ctx name attrs])).

(** Modelled from the spec: the tracer adapter's [annotate(span, attributes)]
    (section 4.4, not under src/).  An open span is "mutated at each
    intermediate event" and becomes [Streaming]; "calls after Closed must be
    ... treated as no-ops". *)
Definition annotate_span (s : Span) (attrs : list KeyValue) : M unit :=
  fun t =>
    match spans t !! s with
    | Some sp =>
        if is_closed (running sp) then (tt, t)
        else (tt, mkTracer (<[s := set_running Streaming sp]> (spans t))
                           (log t ++ [EvAnnotate s attrs]))
    | None => (tt, t)
    end.

(** Modelled from the spec: the tracer adapter's
    [close(span, error, attributes)] (section 4.4, not under src/).  The
    status of the close is derived from the error; a span that is already
    [Closed] is not closed again ("invoking the terminal continuation twice
    must not double-close a span"). *)
Definition close_span (s : Span) (err : error) (attrs : list KeyValue) : M unit :=
  fun t =>
    match spans t !! s with
    | Some sp =>
        if is_closed (running sp) then (tt, t)
        else (tt, mkTracer (<[s := set_running Closed sp]> (spans t))
                           (log t ++ [EvClose s (status_of_error err) attrs]))
    | None => (tt, t)
    end.

(** ** Helpers of the bridge that the handlers call *)

(** Modelled from the spec: [startSpan(ctx, operationName, fields...)]
    (helper of this package, not under src/): opens a span through the
    tracer adapter and returns it. *)
Definition startSpan (ctx : Context) (operationName : string)
  (fields : list KeyValue) : M Span :=
  r <- open_span ctx operationName fields ;;
  ret (fst r).

(** Modelled from the spec: [intermediate(span, err)] (helper of this package,
    not under src/): "records a non-terminal span event" carrying the
    error attributes; it never closes. *)
Definition intermediate (s : Span) (err : error) : M unit :=
  annotate_span s (error_attrs err).

(** Modelled from the spec: [finish(span, err, fields...)] (helper of this
    package, not under src/): "sets status/attributes and closes the
    span". *)
Definition finish (s : Span) (err : error) (fields : list KeyValue) : M unit :=
  close_span s err fields.

(** ** Package safe: guarded helpers *)

(** Outcome of calling a method that may fault (panic). *)
Inductive outcome (A : Type) : Type :=
| Returns (a : A)
| Panics.
Arguments Returns {A} a.
Arguments Panics {A}.

Module safe.

(** A [fmt.Stringer] value, given by what its [String()] method does (a nil
    interface value faults when the method is called). *)
Record Stringer_value : Type := { String_method : outcome string }.

(** A value with an [Err() error] method: the describable result of a
    scripting execution. *)
Record Result_value : Type := { Err_method : error }.

(** Modelled from the spec: [safe.Stringer] (package internal/safe, not
    under src/): "attempt natural conversion; on any failure substitute a
    fixed sentinel string; never propagate the failure".  The sentinel's
    text is not given; it is the parameter [sentinel]. *)
Definition Stringer (sentinel : string) (s : Stringer_value) : string :=
  match String_method s with
  | Returns text => text
  | Panics => sentinel
  end.

(** Modelled from the spec: [safe.Err] (package internal/safe, not under
    src/): the guarded extraction of the error carried by a result value;
    a nil result carries no error. *)
Definition Err (r : option Result_value) : error :=
  match r with
  | None => None
  | Some v => Err_method v
  end.

End safe.

(** ** Package trace of the driver: event records and handler structs *)

Module trace.

(** [type Details uint64]: a bit mask. *)
Definition Details : Type := Z.

(** The mask constants are single bits, [1 << iota]. *)
Definition bit (iota : N) : Details := Z.shiftl 1 (Z.of_N iota).

Module ScriptingExecuteStartInfo.
Record t : Type := {
  Context : Context;
  Query : string;
  Parameters : safe.Stringer_value
}.
End ScriptingExecuteStartInfo.

Module ScriptingExecuteDoneInfo.
Record t : Type := {
  Result : option safe.Result_value;
  Error : error
}.
End ScriptingExecuteDoneInfo.

Module ScriptingStreamExecuteStartInfo.
Record t : Type := {
  Context : Context;
  Query : string;
  Parameters : safe.Stringer_value
}.
End ScriptingStreamExecuteStartInfo.

Module ScriptingStreamExecuteIntermediateInfo.
Record t : Type := { Error : error }.
End ScriptingStreamExecuteIntermediateInfo.

Module ScriptingStreamExecuteDoneInfo.
Record t : Type := { Error : error }.
End ScriptingStreamExecuteDoneInfo.

Module ScriptingExplainStartInfo.
Record t : Type := {
  Context : Context;
  Query : string
}.
End ScriptingExplainStartInfo.

Module ScriptingExplainDoneInfo.
Record t : Type := { Error : error }.
End ScriptingExplainDoneInfo.

Module ScriptingCloseStartInfo.
Record t : Type := { Context : Context }.
End ScriptingCloseStartInfo.

Module ScriptingCloseDoneInfo.
Record t : Type := { Error : error }.
End ScriptingCloseDoneInfo.

Module RetryLoopStartInfo.
Record t : Type := {
  Context : Context;
  Idempotent : bool
}.
End RetryLoopStartInfo.

Module RetryLoopIntermediateInfo.
Record t : Type := { Error : error }.
End RetryLoopIntermediateInfo.

Module RetryLoopDoneInfo.
Record t : Type := {
  Attempts : Z;
  Error : error
}.
End RetryLoopDoneInfo.

(** A two-level chain: the start handler returns the done handler. *)
Definition simple (S D : Type) : Type := S -> M (D -> M unit).

(** A three-level chain: the start handler returns the intermediate
    handler, which returns the done handler. *)
Definition streaming (S I D : Type) : Type := S -> M (I -> M (D -> M unit)).

(** [trace.Scripting]: a nil field is [None]. *)
Record Scripting : Type := {
  OnExecute :
    option (simple ScriptingExecuteStartInfo.t ScriptingExecuteDoneInfo.t);
  OnStreamExecute :
    option (streaming ScriptingStreamExecuteStartInfo.t
                      ScriptingStreamExecuteIntermediateInfo.t
                      ScriptingStreamExecuteDoneInfo.t);
  OnExplain :
    option (simple ScriptingExplainStartInfo.t ScriptingExplainDoneInfo.t);
  OnClose :
    option (simple ScriptingCloseStartInfo.t ScriptingCloseDoneInfo.t)
}.

(** [trace.Retry]. *)
Record Retry : Type := {
  OnRetry :
    option (streaming RetryLoopStartInfo.t RetryLoopIntermediateInfo.t
                      RetryLoopDoneInfo.t)
}.

(** The zero values of the two structs: every handler nil. *)
Definition Scripting_zero : Scripting :=
  {| OnExecute := None; OnStreamExecute := None;
     OnExplain := None; OnClose := None |}.

Definition Retry_zero : Retry := {| OnRetry := None |}.

End trace.

(** ** The handler constructors *)

Section Bridge.

(** Bit positions of [trace.ScriptingEvents] and [trace.RetryEvents] in the
    details mask, and the sentinel text of the guarded formatter: constants
    of packages that are not part of the sources at hand. *)
Variables (scripting_iota retry_iota : N).
Variable sentinel : string.

Definition ScriptingEvents : trace.Details := trace.bit scripting_iota.
Definition RetryEvents : trace.Details := trace.bit retry_iota.

(** [err == nil]. *)
Definition is_nil (err : error) : bool :=
  match err with
  | None => true
  | Some _ => false
  end.

(** scripting.go, [func Scripting(details trace.Details) (t trace.Scripting)]. *)
Definition Scripting (details : trace.Details) : trace.Scripting :=
  let t := trace.Scripting_zero in
  if negb (Z.land details ScriptingEvents =? 0) then
    {| trace.OnExecute := Some (fun info =>
         start <- startSpan
           info.(trace.ScriptingExecuteStartInfo.Context)
           "ydb_scripting_execute"
           [otlog.String "query" info.(trace.ScriptingExecuteStartInfo.Query);
            otlog.String "params"
              (safe.Stringer sentinel
                 info.(trace.ScriptingExecuteStartInfo.Parameters))] ;;
         ret (fun info =>
           if is_nil info.(trace.ScriptingExecuteDoneInfo.Error) then
             finish
               start
               (safe.Err info.(trace.ScriptingExecuteDoneInfo.Result))
               []
           else
             finish
               start
               info.(trace.ScriptingExecuteDoneInfo.Error)
               []));
       trace.OnStreamExecute := Some (fun info =>
         start <- startSpan
           info.(trace.ScriptingStreamExecuteStartInfo.Context)
           "ydb_scripting_stream_execute"
           [otlog.String "query"
              info.(trace.ScriptingStreamExecuteStartInfo.Query);
            otlog.String "params"
              (safe.Stringer sentinel
                 info.(trace.ScriptingStreamExecuteStartInfo.Parameters))] ;;
         ret (fun info =>
           intermediate start
             info.(trace.ScriptingStreamExecuteIntermediateInfo.Error) ;;
           ret (fun info =>
             finish start
               info.(trace.ScriptingStreamExecuteDoneInfo.Error) [])));
       trace.OnExplain := Some (fun info =>
         start <- startSpan
           info.(trace.ScriptingExplainStartInfo.Context)
           "ydb_scripting_explain"
           [otlog.String "query" info.(trace.ScriptingExplainStartInfo.Query)] ;;
         ret (fun info =>
           finish start info.(trace.ScriptingExplainDoneInfo.Error) []));
       trace.OnClose := Some (fun info =>
         start <- startSpan
           info.(trace.ScriptingCloseStartInfo.Context)
           "ydb_scripting_close"
           [] ;;
         ret (fun info =>
           finish start info.(trace.ScriptingCloseDoneInfo.Error) []))
    |}
  else t.

(** retry.go, [func Retry(details trace.Details) (t trace.Retry)]. *)
Definition Retry (details : trace.Details) : trace.Retry :=
  let t := trace.Retry_zero in
  if negb (Z.land details RetryEvents =? 0) then
    {| trace.OnRetry := Some (fun info =>
         start <- startSpan
           info.(trace.RetryLoopStartInfo.Context)
           "ydb_retry"
           [attribute.Bool "idempotent"
              info.(trace.RetryLoopStartInfo.Idempotent)] ;;
         ret (fun info =>
           intermediate start info.(trace.RetryLoopIntermediateInfo.Error) ;;
           ret (fun info =>
             finish start
               info.(trace.RetryLoopDoneInfo.Error)
               [attribute.Int "attempts"
                  info.(trace.RetryLoopDoneInfo.Attempts)])))
    |}
  else t.

End Bridge.

(** ** The driver's side of a chain *)

(** A continuation that does nothing. *)
Definition noop_done {D : Type} : D -> M unit := fun _ => ret tt.

(** Modelled from the spec: how the driver invokes a handler field of a
    two-level chain (dispatch code of the driver's trace package, not under
    src/): a nil handler is not called and a no-op continuation stands in for
    its result ("disabled kind => no span, all continuations no-op"). *)
Definition call_simple {S D : Type} (h : option (trace.simple S D))
  : trace.simple S D :=
  match h with
  | Some f => f
  | None => fun _ => ret noop_done
  end.

(** Modelled from the spec: the same dispatch for a three-level chain (not
    under src/). *)
Definition call_streaming {S I D : Type} (h : option (trace.streaming S I D))
  : trace.streaming S I D :=
  match h with
  | Some f => f
  | None => fun _ => ret (fun _ => ret noop_done)
  end.

(** The driver delivers a start event and then the terminal event of a
    two-level chain. *)
Definition run_simple {S D : Type} (h : trace.simple S D) (s : S) (d : D)
  : M unit :=
  done <- h s ;;
  done d.

(** The driver delivers the intermediate events [evs] to the intermediate
    continuation [inter]; each call returns a terminal continuation and the
    driver keeps the one returned last ([last] if there was no call). *)
Fixpoint feed {I D : Type} (inter : I -> M (D -> M unit)) (evs : list I)
  (last : option (D -> M unit)) : M (option (D -> M unit)) :=
  match evs with
  | [] => ret last
  | i :: evs' =>
      done <- inter i ;;
      feed inter evs' (Some done)
  end.

(** The driver delivers one start event, the intermediate events [evs] and one
    terminal event to a three-level chain.  The terminal continuation only
    exists as the value returned by an intermediate call: when there was none
    the driver holds no terminal continuation and the terminal event cannot
    be delivered; the result tells whether it was. *)
Definition run_streaming {S I D : Type} (h : trace.streaming S I D)
  (s : S) (evs : list I) (d : D) : M bool :=
  inter <- h s ;;
  last <- feed inter evs None ;;
  match last with
  | Some done => done d ;; ret true
  | None => ret false
  end.

(** ** Observations on the tracer *)

Definition span_is_open (t : Tracer) (s : Span) : bool :=
  match spans t !! s with
  | Some sp => negb (is_closed (running sp))
  | None => false
  end.

Definition span_is_closed (t : Tracer) (s : Span) : bool :=
  match spans t !! s with
  | Some sp => is_closed (running sp)
  | None => false
  end.

Definition is_open_of (s : Span) (ev : TraceEvent) : bool :=
  match ev with
  | EvOpen s' _ _ _ => Nat.eqb s s'
  | _ => false
  end.

Definition is_annotate_of (s : Span) (ev : TraceEvent) : bool :=
  match ev with
  | EvAnnotate s' _ => Nat.eqb s s'
  | _ => false
  end.

Definition is_close_of (s : Span) (ev : TraceEvent) : bool :=
  match ev with
  | EvClose s' _ _ => Nat.eqb s s'
  | _ => false
  end.

(** How many times span [s] was opened, annotated, closed in a log. *)
Definition count_opens (s : Span) (l : list TraceEvent) : nat :=
  length (List.filter (is_open_of s) l).

Definition count_annotates (s : Span) (l : list TraceEvent) : nat :=
  length (List.filter (is_annotate_of s) l).

Definition count_closes (s : Span) (l : list TraceEvent) : nat :=
  length (List.filter (is_close_of s) l).

(** The status with which span [s] was (first) closed in a log. *)
Fixpoint final_status (s : Span) (l : list TraceEvent) : option Status :=
  match l with
  | [] => None
  | EvClose s' st _ :: l' =>
      if Nat.eqb s s' then Some st else final_status s l'
  | _ :: l' => final_status s l'
  end.

(** The values written under attribute [key] by one event, and by a log. *)
Definition event_attrs (ev : TraceEvent) : list KeyValue :=
  match ev with
  | EvOpen _ _ _ attrs => attrs
  | EvAnnotate _ attrs => attrs
  | EvClose _ _ attrs => attrs
  end.

Definition attr_writes (key : string) (l : list TraceEvent) : list AttrValue :=
  map Value
    (List.filter (fun kv => String.eqb key (Key kv)) (flat_map event_attrs l)).

(** Consistency of a tracer: its log opened exactly the spans it holds, once
    each, and closed exactly those whose running status is [Closed], once
    each. *)
Definition tracer_wf (t : Tracer) : Prop :=
  forall s : Span,
    count_opens s (log t) = (if decide (s < length (spans t))%nat then 1 else 0)%nat /\
    count_closes s (log t) = (if span_is_closed t s then 1 else 0)%nat.

(** A terminal continuation, an intermediate continuation, a start handler
    keeps the tracer consistent, and so does every continuation it returns,
    in whatever state of the tracer the driver calls it. *)
Definition keeps_wf_done {D : Type} (k : D -> M unit) : Prop :=
  forall d t, tracer_wf t -> tracer_wf (exec (k d) t).

Definition keeps_wf_inter {I D : Type} (f : I -> M (D -> M unit)) : Prop :=
  forall i t, tracer_wf t ->
    tracer_wf (exec (f i) t) /\ keeps_wf_done (eval (f i) t).

Definition keeps_wf_simple {S D : Type} (h : trace.simple S D) : Prop :=
  forall s t, tracer_wf t ->
    tracer_wf (exec (h s) t) /\ keeps_wf_done (eval (h s) t).

Definition keeps_wf_streaming {S I D : Type} (h : trace.streaming S I D) : Prop :=
  forall s t, tracer_wf t ->
    tracer_wf (exec (h s) t) /\ keeps_wf_inter (eval (h s) t).

(** [h != nil] for a handler field. *)
Definition non_nil {A : Type} (h : option A) : bool :=
  match h with
  | Some _ => true
  | None => false
  end.

(** A chain is inert when none of its calls changes the tracer, whatever the
    state in which the driver makes the call, and likewise for every
    continuation that a call returns. *)
Definition inert_done {D : Type} (k : D -> M unit) : Prop :=
  forall d t, k d t = (tt, t).

Definition inert_inter {I D : Type} (f : I -> M (D -> M unit)) : Prop :=
  forall i t, exec (f i) t = t /\ inert_done (eval (f i) t).

Definition inert_simple {S D : Type} (h : trace.simple S D) : Prop :=
  forall s t, exec (h s) t = t /\ inert_done (eval (h s) t).

Definition inert_streaming {S I D : Type} (h : trace.streaming S I D) : Prop :=
  forall s t, exec (h s) t = t /\ inert_inter (eval (h s) t).

(** The handler installed in a field satisfies [P]. *)
Definition installed {H : Type} (field : option H) (P : H -> Prop) : Prop :=
  match field with
  | Some h => P h
  | None => False
  end.

(** Invoked on a done record [d] while span [s] is open, the terminal
    continuation [k] adds exactly one event to the log, the close of [s] with
    status [status d], and [s] is closed afterwards. *)
Definition closes_with {D : Type} (k : D -> M unit) (s : Span)
  (status : D -> Status) : Prop :=
  forall d t, span_is_open t s = true ->
    span_is_closed (exec (k d) t) s = true /\
    exists attrs, log (exec (k d) t) = log t ++ [EvClose s (status d) attrs].

(** The terminal continuation of a two-level chain belongs to the span that
    the start handler opened, whatever the state [t0] in which the chain was
    started. *)
Definition simple_closes_with {S D : Type} (h : trace.simple S D)
  (status : D -> Status) : Prop :=
  forall (si : S) (t0 : Tracer),
    closes_with (eval (h si) t0) (length (spans t0)) status.

(** The same for a three-level chain, whose terminal continuation is the one
    returned by a call of the intermediate continuation (in any state [t1]). *)
Definition streaming_closes_with {S I D : Type} (h : trace.streaming S I D)
  (status : D -> Status) : Prop :=
  forall (si : S) (t0 : Tracer) (i : I) (t1 : Tracer),
    closes_with (eval (eval (h si) t0 i) t1) (length (spans t0)) status.

(** The status with which the done handler of the scripting execute chain
    closes its span. *)
Definition execute_status (d : trace.ScriptingExecuteDoneInfo.t) : Status :=
  match d.(trace.ScriptingExecuteDoneInfo.Error) with
  | Some msg => StatusError msg
  | None => status_of_error (safe.Err d.(trace.ScriptingExecuteDoneInfo.Result))
  end.

(** Sample records: the start of scenario A of the spec, and a done record
    whose error is nil while its result value carries an error. *)
Definition q1_start : trace.ScriptingExecuteStartInfo.t :=
  {| trace.ScriptingExecuteStartInfo.Context := None;
     trace.ScriptingExecuteStartInfo.Query := "q1";
     trace.ScriptingExecuteStartInfo.Parameters :=
       {| safe.String_method := Returns "{}"%string |} |}.

Definition nil_error_failed_result : trace.ScriptingExecuteDoneInfo.t :=
  {| trace.ScriptingExecuteDoneInfo.Result :=
       Some {| safe.Err_method := Some "boom"%string |};
     trace.ScriptingExecuteDoneInfo.Error := None |}.

(** Sample records of scenario B of the spec. *)
Definition q2_start : trace.ScriptingStreamExecuteStartInfo.t :=
  {| trace.ScriptingStreamExecuteStartInfo.Context := None;
     trace.ScriptingStreamExecuteStartInfo.Query := "q2";
     trace.ScriptingStreamExecuteStartInfo.Parameters :=
       {| safe.String_method := Returns "{}"%string |} |}.

Definition q2_intermediates : list trace.ScriptingStreamExecuteIntermediateInfo.t :=
  [ {| trace.ScriptingStreamExecuteIntermediateInfo.Error := None |};
    {| trace.ScriptingStreamExecuteIntermediateInfo.Error := Some "x"%string |} ].

Definition q2_done : trace.ScriptingStreamExecuteDoneInfo.t :=
  {| trace.ScriptingStreamExecuteDoneInfo.Error := Some "y"%string |}.

(** Sample records of a retry loop. *)
Definition retry_start : trace.RetryLoopStartInfo.t :=
  {| trace.RetryLoopStartInfo.Context := Some 7%nat;
     trace.RetryLoopStartInfo.Idempotent := true |}.

Definition retry_intermediates : list trace.RetryLoopIntermediateInfo.t :=
  [ {| trace.RetryLoopIntermediateInfo.Error := Some "x"%string |};
    {| trace.RetryLoopIntermediateInfo.Error := None |} ].

Definition retry_done : trace.RetryLoopDoneInfo.t :=
  {| trace.RetryLoopDoneInfo.Attempts := 3;
     trace.RetryLoopDoneInfo.Error := None |}.

(** The events that the intermediate calls of a chain on span [s] record, given
    the error of each intermediate record. *)
Definition annotations (s : Span) (errs : list error) : list TraceEvent :=
  map (fun err => EvAnnotate s (error_attrs err)) errs.

(** Invoked in a consistent tracer that holds span [s], the terminal
    continuation [k] leaves a consistent tracer in which [s] has been closed
    exactly once, and invoking it again changes nothing. *)
Definition closes_once {D : Type} (k : D -> M unit) (s : Span) : Prop :=
  forall d t, tracer_wf t -> (s < length (spans t))%nat ->
    let t' := exec (k d) t in
    tracer_wf t' /\
    count_closes s (log t') = 1%nat /\
    forall d', exec (k d') t' = t'.

(** The span opened by the start handler of a two-level chain has not been
    closed when the handler returns, and the terminal continuation closes it
    once. *)
Definition simple_closes_once {S D : Type} (h : trace.simple S D) : Prop :=
  forall (si : S) (t0 : Tracer), tracer_wf t0 ->
    count_closes (length (spans t0)) (log (exec (h si) t0)) = 0%nat /\
    closes_once (eval (h si) t0) (length (spans t0)).

(** The same for a three-level chain and each terminal continuation that an
    intermediate call returns. *)
Definition streaming_closes_once {S I D : Type} (h : trace.streaming S I D)
  : Prop :=
  forall (si : S) (t0 : Tracer) (i : I) (t1 : Tracer), tracer_wf t0 ->
    count_closes (length (spans t0)) (log (exec (h si) t0)) = 0%nat /\
    closes_once (eval (eval (h si) t0 i) t1) (length (spans t0)).

(** The span that an event belongs to. *)
Definition event_span (ev : TraceEvent) : Span :=
  match ev with
  | EvOpen s _ _ _ => s
  | EvAnnotate s _ => s
  | EvClose s _ _ => s
  end.

(** A computation is confined to span [s] when, in whatever state it runs,
    every event it records belongs to [s], it opens no span, and it leaves
    every other span of the tracer exactly as it was. *)
Definition confined_to {A : Type} (s : Span) (m : M A) : Prop :=
  forall t,
    (exists new, log (exec m t) = log t ++ new /\
                 Forall (fun ev => event_span ev = s) new) /\
    length (spans (exec m t)) = length (spans t) /\
    forall s', s' <> s -> spans (exec m t) !! s' = spans t !! s'.

(** A start handler opens one span, with a handle that no existing span has,
    and touches nothing else. *)
Definition opens_fresh {S K : Type} (h : S -> M K) : Prop :=
  forall (si : S) (t0 : Tracer),
    exists ctx name attrs,
      log (exec (h si) t0) =
      log t0 ++ [EvOpen (length (spans t0)) ctx name attrs] /\
      spans (exec (h si) t0) = spans t0 ++ [mkSpan name ctx Opened].

(** Every continuation of a two-level chain is confined to the span that its
    start handler opened. *)
Definition simple_confined {S D : Type} (h : trace.simple S D) : Prop :=
  opens_fresh h /\
  forall (si : S) (t0 : Tracer) (d : D),
    confined_to (length (spans t0)) (eval (h si) t0 d).

(** The same for a three-level chain: the intermediate continuation and every
    terminal continuation it returns. *)
Definition streaming_confined {S I D : Type} (h : trace.streaming S I D)
  : Prop :=
  opens_fresh h /\
  forall (si : S) (t0 : Tracer) (i : I),
    confined_to (length (spans t0)) (eval (h si) t0 i) /\
    forall (t1 : Tracer) (d : D),
      confined_to (length (spans t0)) (eval (eval (h si) t0 i) t1 d).

(** ** The load generator: internal/cmd/bench/main.go *)

(** Go's [int] and [uint64] on a 64-bit platform, as integers with the
    wrap-around written out. *)
Definition int_wrap (z : Z) : Z := (z + 2 ^ 63) mod 2 ^ 64 - 2 ^ 63.

Definition uint64_wrap (z : Z) : Z := z mod 2 ^ 64.

Module bench.

(** Column types, table options and values of the driver, as far as
    [upsertData] builds them. *)
Inductive ydb_type : Type :=
| TypeUint64
| TypeUTF8
| TypeDate
| Optional (t : ydb_type).

Inductive create_option : Type :=
| WithColumn (name : string) (t : ydb_type)
| WithPrimaryKeyColumn (columns : list string).

Inductive Value : Type :=
| Uint64Value (v : Z)
| UTF8Value (v : string)
| DateValueFromTime (t : Z)
| StructValue (fields : list (string * Value))
| ListValue (items : list Value).

(** [types.StructFieldValue(name, v)]. *)
Definition StructFieldValue (name : string) (v : Value) : string * Value :=
  (name, v).

(** The session call made by a closure that is handed to [c.Do]. *)
Inductive TableOp : Type :=
| DropTable (path : string)
| CreateTable (path : string) (opts : list create_option)
| BulkUpsert (path : string) (rows : Value).

(** How a call ends: it returns, it panics, or it blocks for ever; in each
    case with the state in which it left the database. *)
Inductive result (A S : Type) : Type :=
| Done (a : A) (s : S)
| Panicked (s : S)
| Blocked (s : S).
Arguments Done {A S} a s.
Arguments Panicked {A S} s.
Arguments Blocked {A S} s.

(** [fmt.Sprintf] of a format with one verb %d, given the text before and
    after the verb. *)
Definition Sprintf_d (before : string) (n : Z) (after : string) : string :=
  String.append before (String.append (pretty n) after).

Section Client.

(** The table client: [Do op db] is what [c.Do] returns for the closure that
    makes the session call [op], and the state it leaves the database in.
    [path_Join] is [path.Join]; [time_Now n] is the time that [time.Now()]
    returns while row number [n] is built. *)
Variable DB : Type.
Variable Do : TableOp -> DB -> error * DB.
Variable path_Join : string -> string -> string.
Variable time_Now : Z -> Z.

(** The row built in the inner loop of [upsertData] from [n = i+shift+3]. *)
Definition series_row (n : Z) : Value :=
  StructValue
    [StructFieldValue "series_id" (Uint64Value (uint64_wrap n));
     StructFieldValue "title" (UTF8Value (Sprintf_d "series No. " n " title"));
     StructFieldValue "series_info"
       (UTF8Value (Sprintf_d "series No. " n " info"));
     StructFieldValue "release_date" (DateValueFromTime (time_Now n));
     StructFieldValue "comment"
       (UTF8Value (Sprintf_d "series No. " n " comment"))].

(** [for i := 0; i < batchSize; i++ { rows = append(rows, ...) }], from the
    current [i] and [rows]. *)
Fixpoint upsert_rows (fuel : nat) (i shift batchSize : Z) (rows : list Value)
  : list Value :=
  match fuel with
  | O => rows
  | S fuel' =>
      if i <? batchSize then
        upsert_rows fuel' (int_wrap (i + 1)) shift batchSize
          (rows ++ [series_row (int_wrap (int_wrap (i + shift) + 3))])
      else rows
  end.

(** [for shift := 0; shift < rowsLen; shift += batchSize { go func(...) }]:
    the argument of the [BulkUpsert] of each goroutine, in the order in which
    the loop spawns them, from the current [shift]. *)
Fixpoint upsert_spawns (fuel : nat) (shift rowsLen batchSize : Z)
  : list Value :=
  match fuel with
  | O => []
  | S fuel' =>
      if shift <? rowsLen then
        ListValue (upsert_rows (Z.to_nat batchSize) 0 shift batchSize [])
          :: upsert_spawns fuel' (int_wrap (shift + batchSize)) rowsLen batchSize
      else []
  end.

(** The options that [upsertData] passes to [s.CreateTable]. *)
Definition series_options : list create_option :=
  [WithColumn "series_id" (Optional TypeUint64);
   WithColumn "title" (Optional TypeUTF8);
   WithColumn "series_info" (Optional TypeUTF8);
   WithColumn "release_date" (Optional TypeDate);
   WithColumn "comment" (Optional TypeUTF8);
   WithPrimaryKeyColumn ["series_id"%string]].

(** [func upsertData(ctx, c, prefix, tableName, concurrency) (err error)].
    The goroutines are taken in the order in which they are spawned; the
    semaphore channel is modelled by what it does to the spawning loop:
    [make] panics on a negative size, and with size 0 the first send blocks
    for ever, no goroutine being there to receive. *)
Definition upsertData (prefix tableName : string) (concurrency : Z) (db : DB)
  : result error DB :=
  let (err, db) := Do (DropTable (path_Join prefix tableName)) db in
  if negb (is_nil err) then Done err db
  else
    let (err, db) :=
      Do (CreateTable (path_Join prefix tableName) series_options) db in
    if negb (is_nil err) then Done err db
    else
      let rowsLen := 25000000 in
      let batchSize := 1000 in
      if concurrency <? 0 then Panicked db
      else
        match upsert_spawns (Z.to_nat rowsLen) 0 rowsLen batchSize with
        | [] => Done None db
        | spawn :: spawns =>
            if concurrency =? 0 then Blocked db
            else
              Done None
                (fold_left
                   (fun db rows =>
                      snd (Do (BulkUpsert (path_Join prefix tableName) rows) db))
                   (spawn :: spawns) db)
        end.

(** The environment and [strconv.Atoi] as [main] uses them, and the name of
    the database. *)
Variable Getenv : string -> string.
Variable Atoi : string -> Z * error.
Variable db_Name : string.

(** main.go, the closure [concurrency := func() int { ... }()]. *)
Definition concurrency : Z :=
  let (concurrency, err) := Atoi (Getenv "CONCURRENCY") in
  if negb (is_nil err) && (concurrency >? 0) then concurrency
  else 300.

(** main.go, the guarded call
    [if concurrency, err := strconv.Atoi(...); err == nil && concurrency > 0
     { _ = upsertData(ctx, db.Table(), db.Name(), "series", concurrency) }]. *)
Definition prepare_bench_data (db : DB) : result unit DB :=
  let (concurrency, err) := Atoi (Getenv "YDB_PREPARE_BENCH_DATA") in
  if is_nil err && (concurrency >? 0) then
    match upsertData db_Name "series" concurrency db with
    | Done _ db' => Done tt db'
    | Panicked db' => Panicked db'
    | Blocked db' => Blocked db'
    end
  else Done tt db.

End Client.

(** Reading a row back: the field of a struct value, the series id of a row,
    the rows of a batch. *)
Definition field (name : string) (v : Value) : option Value :=
  match v with
  | StructValue fields =>
      match List.find (fun f => String.eqb name (fst f)) fields with
      | Some f => Some (snd f)
      | None => None
      end
  | _ => None
  end.

Definition series_id (row : Value) : option Z :=
  match field "series_id" row with
  | Some (Uint64Value id) => Some id
  | _ => None
  end.

Definition batch_rows (batch : Value) : list Value :=
  match batch with
  | ListValue items => items
  | _ => []
  end.

(** What [res.Scan(&id, &title, &date)] does for one row: the error it
    returns and the three pointers it leaves ([None] is a nil pointer). *)
Record ScannedRow : Type := {
  Scan_err : error;
  Scan_id : option Z;
  Scan_title : option string;
  Scan_date : option Z
}.

(** A stream result: the rows of its result sets, and what [res.Err()] returns
    when the stream is over. *)
Record StreamResult : Type := {
  ResultSets : list (list ScannedRow);
  Err : error
}.

(** Control flow of the closure of [scanSelect]: go on with the next row,
    return an error, or panic; each with the value of [count]. *)
Inductive flow : Type :=
| Next (count : Z)
| Return (count : Z) (err : error)
| Panic (count : Z).

(** [for res.NextRow() { count++; err = res.Scan(...); if err != nil { return
    err }; log.Printf(..., *id, *title, *date) }]: the arguments of the print
    dereference the three pointers. *)
Fixpoint scan_rows (rows : list ScannedRow) (count : Z) : flow :=
  match rows with
  | [] => Next count
  | row :: rows' =>
      let count := uint64_wrap (count + 1) in
      if negb (is_nil (Scan_err row)) then Return count (Scan_err row)
      else
        match Scan_id row, Scan_title row, Scan_date row with
        | Some _, Some _, Some _ => scan_rows rows' count
        | _, _, _ => Panic count
        end
  end.

(** A row is read without incident: [Scan] returns no error and leaves no nil
    pointer. *)
Definition row_ok (row : ScannedRow) : bool :=
  is_nil (Scan_err row) &&
  match Scan_id row, Scan_title row, Scan_date row with
  | Some _, Some _, Some _ => true
  | _, _, _ => false
  end.

(** [for res.NextResultSet(ctx, ...) { for res.NextRow() { ... } }]. *)
Fixpoint scan_sets (sets : list (list ScannedRow)) (count : Z) : flow :=
  match sets with
  | [] => Next count
  | rows :: sets' =>
      match scan_rows rows count with
      | Next count' => scan_sets sets' count'
      | stop => stop
      end
  end.

(** The closure that [scanSelect] hands to [c.Do], run once: [response] is what
    [s.StreamExecuteScanQuery] returns to it and [count] the value that the
    captured variable has when the closure is entered. *)
Definition scanSelect_op (response : StreamResult * error) (count : Z) : flow :=
  let count := 0 in
  let (res, err) := response in
  if negb (is_nil err) then Return count err
  else
    match scan_sets (ResultSets res) count with
    | Next count' => Return count' (Err res)
    | stop => stop
    end.

End bench.

(** ** The filter gate *)

Lemma land_bit_eqb (details : trace.Details) (iota : N) :
  negb (Z.land details (trace.bit iota) =? 0) = Z.testbit details (Z.of_N iota).
Proof.
  unfold trace.bit. rewrite Z.shiftl_1_l.
  assert (Hk : 0 <= Z.of_N iota) by lia.
  destruct (Z.testbit details (Z.of_N iota)) eqn:Hb.
  - apply negb_true_iff, Z.eqb_neq. intros H0.
    assert (Ht : Z.testbit (Z.land details (2 ^ Z.of_N iota)) (Z.of_N iota) = true).
    { rewrite Z.land_spec, Hb, Z.pow2_bits_true by lia. reflexivity. }
    rewrite H0, Z.bits_0 in Ht. discriminate.
  - apply negb_false_iff, Z.eqb_eq. apply Z.bits_inj'. intros n Hn.
    rewrite Z.land_spec, Z.bits_0.
    destruct (Z.eq_dec n (Z.of_N iota)) as [->|Hne].
    + rewrite Hb. reflexivity.
    + rewrite Z.pow2_bits_false by lia. apply andb_false_r.
Qed.

Lemma Scripting_disabled (scripting_iota : N) (sentinel : string)
  (details : trace.Details) :
  Z.testbit details (Z.of_N scripting_iota) = false ->
  Scripting scripting_iota sentinel details = trace.Scripting_zero.
Proof.
  intros H. unfold Scripting, ScriptingEvents.
  rewrite land_bit_eqb, H. reflexivity.
Qed.

Lemma Retry_disabled (retry_iota : N) (details : trace.Details) :
  Z.testbit details (Z.of_N retry_iota) = false ->
  Retry retry_iota details = trace.Retry_zero.
Proof.
  intros H. unfold Retry, RetryEvents.
  rewrite land_bit_eqb, H. reflexivity.
Qed.

(** ** The tracer adapter, observed *)

Lemma span_is_open_lookup (t : Tracer) (s : Span) :
  span_is_open t s = true ->
  exists sp, spans t !! s = Some sp /\ is_closed (running sp) = false.
Proof.
  unfold span_is_open. destruct (spans t !! s) as [sp|]; [|discriminate].
  intros H. exists sp. split; [reflexivity|].
  now apply negb_true_iff.
Qed.

Lemma span_open_not_closed (t : Tracer) (s : Span) :
  span_is_open t s = true -> span_is_closed t s = false.
Proof.
  unfold span_is_open, span_is_closed.
  destruct (spans t !! s) as [sp|]; [|reflexivity].
  now intros H%negb_true_iff.
Qed.

Section Adapter.

Variables (s : Span) (t : Tracer).

Lemma open_span_is_open (ctx : Context) (name : string) (attrs : list KeyValue) :
  span_is_open (exec (open_span ctx name attrs) t) s =
  span_is_open t s || Nat.eqb s (length (spans t)).
Proof.
  unfold span_is_open, exec, open_span. cbn [snd spans].
  destruct (Nat.eqb_spec s (length (spans t))) as [->|Hne].
  - rewrite list_lookup_middle by reflexivity.
    rewrite (lookup_ge_None_2 (spans t)) by lia. reflexivity.
  - rewrite orb_false_r, lookup_app.
    destruct (spans t !! s) as [sp|] eqn:Hs; [reflexivity|].
    apply lookup_ge_None_1 in Hs.
    rewrite lookup_ge_None_2; [reflexivity|]. cbn [length]. lia.
Qed.

Lemma open_span_is_closed (ctx : Context) (name : string) (attrs : list KeyValue) :
  span_is_closed (exec (open_span ctx name attrs) t) s = span_is_closed t s.
Proof.
  unfold span_is_closed, exec, open_span. cbn [snd spans]. rewrite lookup_app.
  destruct (spans t !! s) as [sp|] eqn:Hs; [reflexivity|].
  apply lookup_ge_None_1 in Hs.
  destruct (decide (s = length (spans t))) as [->|Hne].
  - rewrite Nat.sub_diag. reflexivity.
  - rewrite lookup_ge_None_2; [reflexivity|]. cbn [length]. lia.
Qed.

Lemma annotate_span_log (attrs : list KeyValue) :
  log (exec (annotate_span s attrs) t) =
  if span_is_open t s then log t ++ [EvAnnotate s attrs] else log t.
Proof.
  unfold span_is_open, exec, annotate_span.
  destruct (spans t !! s) as [sp|]; [|reflexivity].
  destruct (is_closed (running sp)); reflexivity.
Qed.

Lemma annotate_span_length (attrs : list KeyValue) :
  length (spans (exec (annotate_span s attrs) t)) = length (spans t).
Proof.
  unfold exec, annotate_span.
  destruct (spans t !! s) as [sp|]; [|reflexivity].
  destruct (is_closed (running sp)); [reflexivity|].
  cbn. apply length_insert.
Qed.

Lemma annotate_span_running (attrs : list KeyValue) (s' : Span) :
  (is_closed ∘ running <$> spans (exec (annotate_span s attrs) t) !! s') =
  (is_closed ∘ running <$> spans t !! s').
Proof.
  unfold exec, annotate_span.
  destruct (spans t !! s) as [sp|] eqn:Hs; [|reflexivity].
  destruct (is_closed (running sp)) eqn:Hc; [reflexivity|].
  cbn. destruct (decide (s = s')) as [<-|Hne].
  - rewrite list_lookup_insert_eq by (apply lookup_lt_is_Some; eauto).
    rewrite Hs. cbn. now rewrite Hc.
  - now rewrite list_lookup_insert_ne.
Qed.

Lemma annotate_span_is_open (attrs : list KeyValue) (s' : Span) :
  span_is_open (exec (annotate_span s attrs) t) s' = span_is_open t s'.
Proof.
  unfold span_is_open. pose proof (annotate_span_running attrs s') as H.
  destruct (spans (exec _ t) !! s'), (spans t !! s'); cbn in H;
    congruence.
Qed.

Lemma annotate_span_is_closed (attrs : list KeyValue) (s' : Span) :
  span_is_closed (exec (annotate_span s attrs) t) s' = span_is_closed t s'.
Proof.
  unfold span_is_closed. pose proof (annotate_span_running attrs s') as H.
  destruct (spans (exec _ t) !! s'), (spans t !! s'); cbn in H;
    congruence.
Qed.

Lemma close_span_log (err : error) (attrs : list KeyValue) :
  log (exec (close_span s err attrs) t) =
  if span_is_open t s
  then log t ++ [EvClose s (status_of_error err) attrs]
  else log t.
Proof.
  unfold span_is_open, exec, close_span.
  destruct (spans t !! s) as [sp|]; [|reflexivity].
  destruct (is_closed (running sp)); reflexivity.
Qed.

Lemma close_span_length (err : error) (attrs : list KeyValue) :
  length (spans (exec (close_span s err attrs) t)) = length (spans t).
Proof.
  unfold exec, close_span.
  destruct (spans t !! s) as [sp|]; [|reflexivity].
  destruct (is_closed (running sp)); [reflexivity|].
  cbn. apply length_insert.
Qed.

Lemma close_span_is_closed (err : error) (attrs : list KeyValue) (s' : Span) :
  span_is_closed (exec (close_span s err attrs) t) s' =
  span_is_closed t s' || (Nat.eqb s s' && span_is_open t s).
Proof.
  unfold span_is_closed, span_is_open, exec, close_span.
  destruct (spans t !! s) as [sp|] eqn:Hs.
  - destruct (is_closed (running sp)) eqn:Hc; cbn.
    + now rewrite andb_false_r, orb_false_r.
    + destruct (Nat.eqb_spec s s') as [<-|Hne].
      * rewrite list_lookup_insert_eq by (apply lookup_lt_is_Some; eauto).
        cbn. now rewrite orb_true_r.
      * rewrite list_lookup_insert_ne by assumption.
        now rewrite orb_false_r.
  - now rewrite andb_false_r, orb_false_r.
Qed.

Lemma close_span_is_open (err : error) (attrs : list KeyValue) (s' : Span) :
  span_is_open (exec (close_span s err attrs) t) s' =
  span_is_open t s' && negb (Nat.eqb s s').
Proof.
  unfold span_is_open, exec, close_span.
  destruct (Nat.eqb_spec s s') as [<-|Hne].
  - rewrite andb_false_r.
    destruct (spans t !! s) as [sp|] eqn:Hs; cbn [snd]; [|now rewrite Hs].
    destruct (is_closed (running sp)) eqn:Hc; cbn [snd spans].
    + now rewrite Hs, Hc.
    + now rewrite list_lookup_insert_eq by (apply lookup_lt_is_Some; eauto).
  - rewrite andb_true_r.
    destruct (spans t !! s) as [sp|] eqn:Hs; [|reflexivity].
    destruct (is_closed (running sp)) eqn:Hc; cbn [snd spans]; [reflexivity|].
    now rewrite list_lookup_insert_ne.
Qed.

(** Closing twice is closing once. *)
Lemma close_span_twice (err err' : error) (attrs attrs' : list KeyValue) :
  exec (close_span s err' attrs') (exec (close_span s err attrs) t) =
  exec (close_span s err attrs) t.
Proof.
  unfold exec, close_span.
  destruct (spans t !! s) as [sp|] eqn:Hs; cbn [snd]; [|now rewrite Hs].
  destruct (is_closed (running sp)) eqn:Hc; cbn [snd spans].
  - now rewrite Hs, Hc.
  - now rewrite list_lookup_insert_eq by (apply lookup_lt_is_Some; eauto).
Qed.

End Adapter.

(** ** Consistency of the tracer is kept by the adapter *)

Lemma count_opens_snoc (s : Span) (l : list TraceEvent) (ev : TraceEvent) :
  count_opens s (l ++ [ev]) =
  (count_opens s l + (if is_open_of s ev then 1 else 0))%nat.
Proof.
  unfold count_opens. rewrite List.filter_app, length_app. cbn.
  destruct (is_open_of s ev); reflexivity.
Qed.

Lemma count_closes_snoc (s : Span) (l : list TraceEvent) (ev : TraceEvent) :
  count_closes s (l ++ [ev]) =
  (count_closes s l + (if is_close_of s ev then 1 else 0))%nat.
Proof.
  unfold count_closes. rewrite List.filter_app, length_app. cbn.
  destruct (is_close_of s ev); reflexivity.
Qed.

Lemma tracer_wf_empty : tracer_wf empty_tracer.
Proof. intros s. split; reflexivity. Qed.

Lemma tracer_wf_open (ctx : Context) (name : string) (attrs : list KeyValue)
  (t : Tracer) :
  tracer_wf t -> tracer_wf (exec (open_span ctx name attrs) t).
Proof.
  intros Hwf s. destruct (Hwf s) as [Ho Hc]. split.
  - unfold exec, open_span. cbn [snd log spans].
    rewrite count_opens_snoc, Ho, length_app. cbn [is_open_of length].
    destruct (Nat.eqb_spec s (length (spans t))) as [->|Hne];
      repeat case_decide; lia.
  - rewrite open_span_is_closed, <- Hc.
    unfold exec, open_span. cbn [snd log].
    rewrite count_closes_snoc. cbn [is_close_of]. lia.
Qed.

Lemma tracer_wf_annotate (s : Span) (attrs : list KeyValue) (t : Tracer) :
  tracer_wf t -> tracer_wf (exec (annotate_span s attrs) t).
Proof.
  intros Hwf s'. destruct (Hwf s') as [Ho Hc].
  rewrite annotate_span_length, annotate_span_is_closed, annotate_span_log.
  destruct (span_is_open t s); [|now split].
  rewrite count_opens_snoc, count_closes_snoc. cbn [is_open_of is_close_of].
  split; lia.
Qed.

Lemma tracer_wf_close (s : Span) (err : error) (attrs : list KeyValue)
  (t : Tracer) :
  tracer_wf t -> tracer_wf (exec (close_span s err attrs) t).
Proof.
  intros Hwf s'. destruct (Hwf s') as [Ho Hc].
  rewrite close_span_length, close_span_is_closed, close_span_log.
  destruct (span_is_open t s) eqn:Hopen.
  - rewrite count_opens_snoc, count_closes_snoc. cbn [is_open_of is_close_of].
    split; [lia|]. rewrite Nat.eqb_sym.
    destruct (Nat.eqb_spec s s') as [<-|Hne]; cbn.
    + rewrite Hc, (span_open_not_closed _ _ Hopen). reflexivity.
    + rewrite orb_false_r. lia.
  - rewrite andb_false_r, orb_false_r. now split.
Qed.

(** In a consistent tracer no span was closed more than once. *)
Lemma tracer_wf_closed_once (t : Tracer) (s : Span) :
  tracer_wf t -> (count_closes s (log t) <= 1)%nat.
Proof.
  intros Hwf. destruct (Hwf s) as [_ ->].
  destruct (span_is_closed t s); lia.
Qed.

Lemma keeps_wf_intermediate {I D : Type} (s : Span) (err : I -> error)
  (k : D -> M unit) :
  keeps_wf_done k ->
  keeps_wf_inter (fun i => intermediate s (err i) ;; ret k).
Proof.
  intros Hk i t Hwf. unfold exec, eval, bind, ret, intermediate.
  destruct (annotate_span s (error_attrs (err i)) t) as [[] t'] eqn:Ha.
  cbn [fst snd]. split; [|exact Hk].
  replace t' with (exec (annotate_span s (error_attrs (err i))) t)
    by (unfold exec; now rewrite Ha).
  now apply tracer_wf_annotate.
Qed.

(** ** Running computations of the tracer monad *)

Lemma exec_bind {A B : Type} (m : M A) (k : A -> M B) (t : Tracer) :
  exec (bind m k) t = exec (k (eval m t)) (exec m t).
Proof. unfold exec, eval, bind. now destruct (m t). Qed.

Lemma eval_bind {A B : Type} (m : M A) (k : A -> M B) (t : Tracer) :
  eval (bind m k) t = eval (k (eval m t)) (exec m t).
Proof. unfold exec, eval, bind. now destruct (m t). Qed.

Lemma exec_ret {A : Type} (a : A) (t : Tracer) : exec (ret a) t = t.
Proof. reflexivity. Qed.

Lemma eval_ret {A : Type} (a : A) (t : Tracer) : eval (ret a) t = a.
Proof. reflexivity. Qed.

Lemma eval_startSpan (ctx : Context) (name : string) (attrs : list KeyValue)
  (t : Tracer) :
  eval (startSpan ctx name attrs) t = length (spans t).
Proof. reflexivity. Qed.

Lemma exec_startSpan (ctx : Context) (name : string) (attrs : list KeyValue)
  (t : Tracer) :
  exec (startSpan ctx name attrs) t = exec (open_span ctx name attrs) t.
Proof. reflexivity. Qed.

Lemma exec_finish (s : Span) (err : error) (attrs : list KeyValue) (t : Tracer) :
  exec (finish s err attrs) t = exec (close_span s err attrs) t.
Proof. reflexivity. Qed.

Lemma exec_intermediate (s : Span) (err : error) (t : Tracer) :
  exec (intermediate s err) t = exec (annotate_span s (error_attrs err)) t.
Proof. reflexivity. Qed.

Lemma log_open_span (ctx : Context) (name : string) (attrs : list KeyValue)
  (t : Tracer) :
  log (exec (open_span ctx name attrs) t) =
  log t ++ [EvOpen (length (spans t)) ctx name attrs].
Proof. reflexivity. Qed.

Lemma open_span_opens (ctx : Context) (name : string) (attrs : list KeyValue)
  (t : Tracer) :
  span_is_open (exec (open_span ctx name attrs) t) (length (spans t)) = true.
Proof. rewrite open_span_is_open, Nat.eqb_refl. apply orb_true_r. Qed.

Create Rewrite HintDb bridge.
#[local] Hint Rewrite @exec_bind @eval_bind @exec_ret @eval_ret
  eval_startSpan exec_startSpan exec_finish exec_intermediate : bridge.

(** Unfolds a constructor whose detail bit [H] says is set (or clear) and
    projects the handler fields. *)
Ltac gate H :=
  unfold Scripting, Retry, ScriptingEvents, RetryEvents;
  rewrite land_bit_eqb, H;
  cbn [negb trace.OnExecute trace.OnStreamExecute trace.OnExplain
       trace.OnClose trace.OnRetry trace.Scripting_zero trace.Retry_zero].

(** Runs the monadic glue of a handler down to the adapter calls. *)
Ltac run_handler :=
  unfold run_simple, run_streaming;
  repeat (cbn beta; autorewrite with bridge).

(** ** C10: the constructors and the detail bits *)

(** C10.  For every details mask, [Retry] and [Scripting] return a handler
    struct (they are total functions), each of the handler fields [OnRetry],
    [OnExecute], [OnStreamExecute], [OnExplain], [OnClose] is non-nil exactly
    when the detail bit of its kind ([RetryEvents], [ScriptingEvents]) is set
    in the mask, and when the bit is clear the zero-value struct, all of whose
    handler fields are nil, is returned. *)
Theorem C10_handlers_follow_detail_bits
  (scripting_iota retry_iota : N) (sentinel : string) (details : trace.Details) :
  let r := Retry retry_iota details in
  let t := Scripting scripting_iota sentinel details in
  non_nil (trace.OnRetry r) = Z.testbit details (Z.of_N retry_iota) /\
  non_nil (trace.OnExecute t) = Z.testbit details (Z.of_N scripting_iota) /\
  non_nil (trace.OnStreamExecute t) = Z.testbit details (Z.of_N scripting_iota) /\
  non_nil (trace.OnExplain t) = Z.testbit details (Z.of_N scripting_iota) /\
  non_nil (trace.OnClose t) = Z.testbit details (Z.of_N scripting_iota) /\
  (if Z.testbit details (Z.of_N retry_iota)
   then r <> trace.Retry_zero else r = trace.Retry_zero) /\
  (if Z.testbit details (Z.of_N scripting_iota)
   then t <> trace.Scripting_zero else t = trace.Scripting_zero).
Proof.
  cbv zeta.
  destruct (Z.testbit details (Z.of_N retry_iota)) eqn:Hr;
    destruct (Z.testbit details (Z.of_N scripting_iota)) eqn:Hs;
    unfold Scripting, Retry, ScriptingEvents, RetryEvents;
    rewrite !land_bit_eqb, ?Hr, ?Hs; cbn;
    repeat split; try reflexivity; discriminate.
Qed.

Lemma installed_impl {H : Type} (field : option H) (P Q : H -> Prop) :
  installed field P ->
  (forall h, field = Some h -> P h -> Q h) ->
  installed field Q.
Proof.
  destruct field as [h|]; cbn [installed]; [|tauto].
  intros HP HPQ. now apply HPQ.
Defined.

(** ** C2: a disabled kind is inert *)

Lemma inert_noop_simple {S D : Type} :
  inert_simple (call_simple (@None (trace.simple S D))).
Proof. intros s t. split; [reflexivity|]. intros d t'. reflexivity. Qed.

Lemma inert_noop_streaming {S I D : Type} :
  inert_streaming (call_streaming (@None (trace.streaming S I D))).
Proof.
  intros s t. split; [reflexivity|].
  intros i t'. split; [reflexivity|]. intros d t''. reflexivity.
Qed.

(** An inert three-level chain leaves the tracer as it was for every number of
    intermediate events. *)
Lemma inert_feed {I D : Type} (inter : I -> M (D -> M unit)) :
  inert_inter inter ->
  forall (evs : list I) (last : option (D -> M unit)) (t : Tracer),
    (forall k, last = Some k -> inert_done k) ->
    exec (feed inter evs last) t = t /\
    (forall k, eval (feed inter evs last) t = Some k -> inert_done k).
Proof.
  intros Hin evs. induction evs as [|i evs IH]; intros last t Hlast.
  - split; [reflexivity|]. exact Hlast.
  - cbn [feed]. rewrite exec_bind, eval_bind.
    destruct (Hin i t) as [-> Hk]. apply IH.
    intros k [= <-]. exact Hk.
Qed.

Lemma inert_run_streaming {S I D : Type} (h : trace.streaming S I D) :
  inert_streaming h ->
  forall (s : S) (evs : list I) (d : D) (t : Tracer),
    exec (run_streaming h s evs d) t = t.
Proof.
  intros Hh s evs d t. unfold run_streaming.
  rewrite exec_bind. destruct (Hh s t) as [-> Hin].
  rewrite exec_bind.
  destruct (inert_feed _ Hin evs None t) as [-> Hk]; [discriminate|].
  destruct (eval (feed (eval (h s) t) evs None) t) as [k|]; [|reflexivity].
  rewrite exec_bind, exec_ret. unfold exec. now rewrite (Hk k eq_refl d t).
Qed.

(** C2.  When the detail bit of a kind is clear in the mask, the constructor of
    that kind installs no handler, so the chain that the driver runs is inert:
    for any sequence of start, intermediate and done calls, made in any state
    of the tracer, no call changes the tracer (no span is opened, the log is
    untouched) and every continuation returned is a callable no-op. *)
Theorem C2_disabled_kind_is_inert
  (scripting_iota retry_iota : N) (sentinel : string) (details : trace.Details) :
  (Z.testbit details (Z.of_N scripting_iota) = false ->
   let t := Scripting scripting_iota sentinel details in
   inert_simple (call_simple (trace.OnExecute t)) /\
   inert_streaming (call_streaming (trace.OnStreamExecute t)) /\
   inert_simple (call_simple (trace.OnExplain t)) /\
   inert_simple (call_simple (trace.OnClose t)) /\
   forall s evs d tr,
     tr = exec (run_streaming (call_streaming (trace.OnStreamExecute t))
                  s evs d) tr) /\
  (Z.testbit details (Z.of_N retry_iota) = false ->
   let r := Retry retry_iota details in
   inert_streaming (call_streaming (trace.OnRetry r)) /\
   forall s evs d tr,
     tr = exec (run_streaming (call_streaming (trace.OnRetry r)) s evs d) tr).
Proof.
  split; intros H; cbv zeta.
  - rewrite (Scripting_disabled _ _ _ H).
    cbn [trace.Scripting_zero trace.OnExecute trace.OnStreamExecute
         trace.OnExplain trace.OnClose].
    repeat split;
      try apply inert_noop_simple; try apply inert_noop_streaming.
    intros. symmetry. apply inert_run_streaming, inert_noop_streaming.
  - rewrite (Retry_disabled _ _ H). cbn [trace.Retry_zero trace.OnRetry].
    split; [apply inert_noop_streaming|].
    intros. symmetry. apply inert_run_streaming, inert_noop_streaming.
Qed.

Lemma C2_disabled_kind_is_inert_witness :
  (let t := Scripting 0 EmptyString 4 in
   inert_simple (call_simple (trace.OnExecute t)) /\
   inert_streaming (call_streaming (trace.OnStreamExecute t)) /\
   inert_simple (call_simple (trace.OnExplain t)) /\
   inert_simple (call_simple (trace.OnClose t)) /\
   forall s evs d tr,
     tr = exec (run_streaming (call_streaming (trace.OnStreamExecute t))
                  s evs d) tr) /\
  (let r := Retry 1 4 in
   inert_streaming (call_streaming (trace.OnRetry r)) /\
   forall s evs d tr,
     tr = exec (run_streaming (call_streaming (trace.OnRetry r)) s evs d) tr).
Proof.
  destruct (C2_disabled_kind_is_inert 0 1 EmptyString 4) as [Hs Hr].
  split; [apply Hs; reflexivity | apply Hr; reflexivity].
Defined.

(** ** C1, C5, C9: the status of the terminal event *)

Lemma finish_closes_with {D : Type} (s : Span) (E : D -> error)
  (A : D -> list KeyValue) (k : D -> M unit) (status : D -> Status) :
  (forall d t, exec (k d) t = exec (close_span s (E d) (A d)) t) ->
  (forall d, status d = status_of_error (E d)) ->
  closes_with k s status.
Proof.
  intros Hk Hst d t Hopen. rewrite Hk, Hst. split.
  - rewrite close_span_is_closed, Nat.eqb_refl, Hopen. apply orb_true_r.
  - exists (A d). now rewrite close_span_log, Hopen.
Qed.

Lemma execute_done_runs (s : Span) (d : trace.ScriptingExecuteDoneInfo.t)
  (t : Tracer) :
  exec (if is_nil d.(trace.ScriptingExecuteDoneInfo.Error)
        then finish s (safe.Err d.(trace.ScriptingExecuteDoneInfo.Result)) []
        else finish s d.(trace.ScriptingExecuteDoneInfo.Error) []) t =
  exec (close_span s
          (if is_nil d.(trace.ScriptingExecuteDoneInfo.Error)
           then safe.Err d.(trace.ScriptingExecuteDoneInfo.Result)
           else d.(trace.ScriptingExecuteDoneInfo.Error)) []) t.
Proof. now destruct (is_nil _). Qed.

Lemma execute_status_eq (d : trace.ScriptingExecuteDoneInfo.t) :
  execute_status d =
  status_of_error
    (if is_nil d.(trace.ScriptingExecuteDoneInfo.Error)
     then safe.Err d.(trace.ScriptingExecuteDoneInfo.Result)
     else d.(trace.ScriptingExecuteDoneInfo.Error)).
Proof.
  unfold execute_status.
  now destruct (trace.ScriptingExecuteDoneInfo.Error d).
Qed.

(** C1 (as amended).  For every terminal event of every enabled chain the span
    is closed with the status of the error that the done handler passes on.
    In the stream-execute, explain, close and retry chains this is the done
    record's error: nil closes the span with status OK, non-nil with status
    Error whose message is the error's text.  In the scripting execute chain
    a non-nil error closes the span with status Error and its text, while a
    nil error closes it with the status of the error extracted from the
    record's result value, which is OK only if the result carries none. *)
Theorem C1_status_follows_passed_error
  (scripting_iota retry_iota : N) (sentinel : string) (details : trace.Details) :
  (Z.testbit details (Z.of_N scripting_iota) = true ->
   let t := Scripting scripting_iota sentinel details in
   installed (trace.OnExecute t)
     (fun h => simple_closes_with h execute_status) /\
   installed (trace.OnStreamExecute t)
     (fun h => streaming_closes_with h
        (fun d => status_of_error
                    d.(trace.ScriptingStreamExecuteDoneInfo.Error))) /\
   installed (trace.OnExplain t)
     (fun h => simple_closes_with h
        (fun d => status_of_error d.(trace.ScriptingExplainDoneInfo.Error))) /\
   installed (trace.OnClose t)
     (fun h => simple_closes_with h
        (fun d => status_of_error d.(trace.ScriptingCloseDoneInfo.Error)))) /\
  (Z.testbit details (Z.of_N retry_iota) = true ->
   installed (trace.OnRetry (Retry retry_iota details))
     (fun h => streaming_closes_with h
        (fun d => status_of_error d.(trace.RetryLoopDoneInfo.Error)))).
Proof.
  split; intros H; cbv zeta.
  - gate H. cbn [installed].
    split; [|split; [|split]]; intros si t0; [| intros i t1 | |]; run_handler.
    + eapply finish_closes_with;
        [intros d t; apply execute_done_runs | apply execute_status_eq].
    + eapply finish_closes_with with (A := fun _ => []); reflexivity.
    + eapply finish_closes_with with (A := fun _ => []); reflexivity.
    + eapply finish_closes_with with (A := fun _ => []); reflexivity.
  - gate H. cbn [installed]. intros si t0 i t1. run_handler.
    eapply finish_closes_with
      with (A := fun d => [attribute.Int "attempts"
                             d.(trace.RetryLoopDoneInfo.Attempts)]);
      reflexivity.
Qed.

Lemma C1_status_follows_passed_error_witness :
  (Z.testbit 3 (Z.of_N 0) = true /\ Z.testbit 3 (Z.of_N 1) = true) /\
  installed (trace.OnExecute (Scripting 0 "<failed>" 3))
    (fun h => simple_closes_with h execute_status) /\
  installed (trace.OnRetry (Retry 1 3))
    (fun h => streaming_closes_with h
       (fun d => status_of_error d.(trace.RetryLoopDoneInfo.Error))).
Proof.
  destruct (C1_status_follows_passed_error 0 1 "<failed>" 3) as [Hs Hr].
  split; [split; reflexivity|].
  split; [apply Hs; reflexivity | apply Hr; reflexivity].
Defined.

(** C1 as stated fails in the scripting execute chain: the done record below
    has a nil error, yet the span is closed with status Error, because the
    result value of the record carries an error. *)
Lemma C1_counterexample :
  trace.ScriptingExecuteDoneInfo.Error nil_error_failed_result = None /\
  installed (trace.OnExecute (Scripting 0 "<failed>" 1))
    (fun h =>
       let t' := exec (run_simple h q1_start nil_error_failed_result)
                   empty_tracer in
       final_status 0 (log t') = Some (StatusError "boom") /\
       final_status 0 (log t') <>
       Some (status_of_error
               (trace.ScriptingExecuteDoneInfo.Error nil_error_failed_result))).
Proof.
  split; [reflexivity|]. vm_compute. split; [reflexivity|discriminate].
Qed.

(** C5.  In the scripting execute chain, when the error of the terminal record
    is nil the done handler closes the span with the error that the guarded
    helper extracts from the record's result value, not with a fixed OK
    status: if the result value carries a non-nil error, the span is closed
    with status Error and that error's text. *)
Theorem C5_nil_error_closes_with_result_error
  (scripting_iota : N) (sentinel : string) (details : trace.Details) :
  Z.testbit details (Z.of_N scripting_iota) = true ->
  installed (trace.OnExecute (Scripting scripting_iota sentinel details))
    (fun h =>
       forall si t0 d t,
         d.(trace.ScriptingExecuteDoneInfo.Error) = None ->
         span_is_open t (length (spans t0)) = true ->
         let t' := exec (eval (h si) t0 d) t in
         log t' =
         log t ++ [EvClose (length (spans t0))
                     (status_of_error
                        (safe.Err d.(trace.ScriptingExecuteDoneInfo.Result)))
                     []] /\
         forall r msg,
           d.(trace.ScriptingExecuteDoneInfo.Result) = Some r ->
           safe.Err_method r = Some msg ->
           log t' = log t ++ [EvClose (length (spans t0)) (StatusError msg) []]).
Proof.
  intros H. gate H. cbn [installed]. intros si t0 d t Herr Hopen.
  run_handler. cbv zeta.
  rewrite execute_done_runs, Herr. cbn [is_nil].
  rewrite close_span_log, Hopen. split; [reflexivity|].
  intros r msg -> Hmsg. cbn [safe.Err]. now rewrite Hmsg.
Qed.

Lemma C5_nil_error_closes_with_result_error_witness :
  Z.testbit 1 (Z.of_N 0) = true /\
  installed (trace.OnExecute (Scripting 0 "<failed>" 1))
    (fun h =>
       let t1 := exec (h q1_start) empty_tracer in
       log (exec (eval (h q1_start) empty_tracer nil_error_failed_result) t1) =
       log t1 ++ [EvClose 0 (StatusError "boom") []]).
Proof.
  split; [reflexivity|].
  eapply installed_impl;
    [exact (C5_nil_error_closes_with_result_error 0 "<failed>" 1 eq_refl)|].
  intros h Hh HP. cbv zeta.
  assert (Hopen : span_is_open (exec (h q1_start) empty_tracer) 0 = true)
    by (injection Hh as <-; reflexivity).
  exact (proj2 (HP q1_start empty_tracer nil_error_failed_result _
                  eq_refl Hopen) _ _ eq_refl eq_refl).
Defined.

(** C9 as stated fails: scenario A started with query "q1" and ended by a
    terminal call whose error is nil does not log a close with status OK when
    the result value of the terminal record carries an error. *)
Lemma C9_counterexample :
  trace.ScriptingExecuteDoneInfo.Error nil_error_failed_result = None /\
  installed (trace.OnExecute (Scripting 0 "<failed>" 1))
    (fun h =>
       let l := log (exec (run_simple h q1_start nil_error_failed_result)
                       empty_tracer) in
       l = [EvOpen 0 None "ydb_scripting_execute"
              [otlog.String "query" "q1"; otlog.String "params" "{}"];
            EvClose 0 (StatusError "boom") []] /\
       forall attrs attrs',
         l <> [EvOpen 0 None "ydb_scripting_execute" attrs;
               EvClose 0 StatusOK attrs']).
Proof.
  split; [reflexivity|]. vm_compute. split; [reflexivity|].
  intros attrs attrs' [= _ Hst].
Qed.

(** C9 (as amended).  In an enabled scripting execute chain started with query
    text q, the start handler opens the span with the attributes query = q and
    params = the guarded stringification of the parameters; a subsequent
    terminal call whose error is nil and whose result value carries no error
    closes that span with status OK, so that the chain adds to the tracer log
    exactly the two events open(query, params), close(status = OK). *)
Theorem C9_execute_scenario_logs_open_close
  (scripting_iota : N) (sentinel : string) (details : trace.Details) :
  Z.testbit details (Z.of_N scripting_iota) = true ->
  installed (trace.OnExecute (Scripting scripting_iota sentinel details))
    (fun h =>
       forall si d t0,
         d.(trace.ScriptingExecuteDoneInfo.Error) = None ->
         safe.Err d.(trace.ScriptingExecuteDoneInfo.Result) = None ->
         log (exec (run_simple h si d) t0) =
         log t0 ++
         [EvOpen (length (spans t0))
            si.(trace.ScriptingExecuteStartInfo.Context)
            "ydb_scripting_execute"
            [otlog.String "query" si.(trace.ScriptingExecuteStartInfo.Query);
             otlog.String "params"
               (safe.Stringer sentinel
                  si.(trace.ScriptingExecuteStartInfo.Parameters))];
          EvClose (length (spans t0)) StatusOK []]).
Proof.
  intros H. gate H. cbn [installed]. intros si d t0 Herr Hres.
  run_handler.
  rewrite execute_done_runs, Herr. cbn [is_nil]. rewrite Hres.
  rewrite close_span_log, open_span_opens, log_open_span, <- app_assoc.
  reflexivity.
Qed.

Lemma C9_execute_scenario_logs_open_close_witness :
  Z.testbit 1 (Z.of_N 0) = true /\
  installed (trace.OnExecute (Scripting 0 "<failed>" 1))
    (fun h =>
       log (exec (run_simple h q1_start
                    {| trace.ScriptingExecuteDoneInfo.Result := None;
                       trace.ScriptingExecuteDoneInfo.Error := None |})
              empty_tracer) =
       [EvOpen 0 None "ydb_scripting_execute"
          [otlog.String "query" "q1"; otlog.String "params" "{}"];
        EvClose 0 StatusOK []]).
Proof.
  split; [reflexivity|].
  eapply installed_impl;
    [exact (C9_execute_scenario_logs_open_close 0 "<failed>" 1 eq_refl)|].
  intros h _ HP.
  exact (HP q1_start
            {| trace.ScriptingExecuteDoneInfo.Result := None;
               trace.ScriptingExecuteDoneInfo.Error := None |}
            empty_tracer eq_refl eq_refl).
Defined.

(** ** C4, C7, C8: the three-level chains *)

(** The intermediate continuation that both streaming chains build. *)
Lemma feed_intermediate {I D : Type} (s : Span) (err : I -> error)
  (k : D -> M unit) (evs : list I) :
  forall (last : option (D -> M unit)) (t : Tracer),
    span_is_open t s = true ->
    let r := feed (fun i => intermediate s (err i) ;; ret k) evs last in
    eval r t = match evs with [] => last | _ :: _ => Some k end /\
    log (exec r t) = log t ++ annotations s (map err evs) /\
    span_is_open (exec r t) s = true.
Proof.
  induction evs as [|i evs IH]; intros last t Hopen; cbv zeta.
  - cbn [feed map annotations]. rewrite app_nil_r. now rewrite exec_ret, eval_ret.
  - cbn [feed]. rewrite exec_bind, eval_bind. run_handler.
    assert (Hopen' : span_is_open
                       (exec (annotate_span s (error_attrs (err i))) t) s = true)
      by now rewrite annotate_span_is_open.
    destruct (IH (Some k) _ Hopen') as (Hev & Hlog & Hop).
    rewrite Hev, Hlog, Hop, annotate_span_log, Hopen.
    unfold annotations. cbn [map]. rewrite <- app_assoc.
    repeat split. now destruct evs.
Qed.

(** A whole run of a chain of that shape with at least one intermediate
    event. *)
Lemma run_streaming_log {S I D : Type} (ctx : S -> Context) (name : string)
  (attrs : S -> list KeyValue) (err : I -> error)
  (derr : D -> error) (dattrs : D -> list KeyValue)
  (si : S) (i : I) (evs : list I) (d : D) (t0 : Tracer) :
  let h : trace.streaming S I D := fun info =>
    start <- startSpan (ctx info) name (attrs info) ;;
    ret (fun info => intermediate start (err info) ;;
                     ret (fun info => finish start (derr info) (dattrs info))) in
  let s := length (spans t0) in
  let r := run_streaming h si (i :: evs) d in
  eval r t0 = true /\
  log (exec r t0) =
  log t0 ++
  EvOpen s (ctx si) name (attrs si)
    :: annotations s (map err (i :: evs))
    ++ [EvClose s (status_of_error (derr d)) (dattrs d)].
Proof.
  cbv zeta. unfold run_streaming.
  rewrite !exec_bind, !eval_bind. run_handler.
  set (s := length (spans t0)).
  set (t1 := exec (open_span (ctx si) name (attrs si)) t0).
  assert (Hopen : span_is_open t1 s = true) by apply open_span_opens.
  destruct (feed_intermediate s err
              (fun info : D => finish s (derr info) (dattrs info))
              (i :: evs) None t1 Hopen) as (Hev & Hlog & Hop).
  cbv zeta in Hev, Hlog, Hop. rewrite Hev. run_handler.
  split; [reflexivity|].
  rewrite close_span_log, Hop, Hlog. unfold t1. rewrite log_open_span.
  rewrite <- !app_assoc. reflexivity.
Qed.

Lemma length_annotations (s : Span) (errs : list error) :
  length (annotations s errs) = length errs.
Proof. unfold annotations. apply length_map. Qed.

Lemma chain_counts (s : Span) (ctx : Context) (name : string)
  (attrs : list KeyValue) (errs : list error) (st : Status)
  (attrs' : list KeyValue) :
  let new :=
    EvOpen s ctx name attrs :: annotations s errs ++ [EvClose s st attrs'] in
  count_opens s new = 1%nat /\
  count_annotates s new = length errs /\
  count_closes s new = 1%nat.
Proof.
  cbv zeta. unfold count_opens, count_annotates, count_closes.
  cbn [List.filter is_open_of is_annotate_of is_close_of].
  rewrite Nat.eqb_refl, !List.filter_app. cbn [List.filter is_open_of
    is_annotate_of is_close_of]. rewrite Nat.eqb_refl.
  cbn [length]. rewrite !length_app. cbn [length].
  induction errs as [|err errs IH]; [repeat split|].
  unfold annotations in *. cbn [map List.filter is_open_of is_annotate_of
    is_close_of]. rewrite Nat.eqb_refl. cbn [length].
  destruct IH as (Ho & Ha & Hc). repeat split; lia.
Qed.

(** C4 as stated fails for N = 0: the terminal continuation of a streaming
    chain only exists as the value returned by an intermediate call, so after
    a start event and no intermediate event the driver holds no terminal
    continuation; the terminal event cannot be delivered and the span is
    opened but not closed. *)
Lemma C4_counterexample :
  installed (trace.OnStreamExecute (Scripting 0 "<failed>" 1))
    (fun h =>
       let r := run_streaming h q2_start [] q2_done in
       eval r empty_tracer = false /\
       log (exec r empty_tracer) =
       [EvOpen 0 None "ydb_scripting_stream_execute"
          [otlog.String "query" "q2"; otlog.String "params" "{}"]] /\
       count_opens 0 (log (exec r empty_tracer)) = 1%nat /\
       count_closes 0 (log (exec r empty_tracer)) <> 1%nat).
Proof. vm_compute. repeat split; discriminate. Qed.

(** C4 (as amended).  For every enabled streaming chain (scripting stream
    execute, retry loop) and every N >= 1, a call sequence of one start event,
    N intermediate events and one terminal event, delivered to the terminal
    continuation that the last intermediate call returned, makes the tracer
    record exactly one span open, then exactly N annotate calls (one per
    intermediate event, with the attributes of its error), then exactly one
    span close, in that order. *)
Theorem C4_streaming_run_logs_open_annotates_close
  (scripting_iota retry_iota : N) (sentinel : string) (details : trace.Details) :
  (Z.testbit details (Z.of_N scripting_iota) = true ->
   installed
     (trace.OnStreamExecute (Scripting scripting_iota sentinel details))
     (fun h =>
        forall (n : nat) si evs d t0,
          length evs = n -> (1 <= n)%nat ->
          let s := length (spans t0) in
          let r := run_streaming h si evs d in
          let anns :=
            annotations s
              (map trace.ScriptingStreamExecuteIntermediateInfo.Error evs) in
          let new :=
            EvOpen s si.(trace.ScriptingStreamExecuteStartInfo.Context)
              "ydb_scripting_stream_execute"
              [otlog.String "query"
                 si.(trace.ScriptingStreamExecuteStartInfo.Query);
               otlog.String "params"
                 (safe.Stringer sentinel
                    si.(trace.ScriptingStreamExecuteStartInfo.Parameters))]
              :: anns
              ++ [EvClose s
                    (status_of_error
                       d.(trace.ScriptingStreamExecuteDoneInfo.Error)) []] in
          eval r t0 = true /\
          log (exec r t0) = log t0 ++ new /\
          length anns = n /\
          count_opens s new = 1%nat /\
          count_annotates s new = n /\
          count_closes s new = 1%nat)) /\
  (Z.testbit details (Z.of_N retry_iota) = true ->
   installed (trace.OnRetry (Retry retry_iota details))
     (fun h =>
        forall (n : nat) si evs d t0,
          length evs = n -> (1 <= n)%nat ->
          let s := length (spans t0) in
          let r := run_streaming h si evs d in
          let anns :=
            annotations s (map trace.RetryLoopIntermediateInfo.Error evs) in
          let new :=
            EvOpen s si.(trace.RetryLoopStartInfo.Context) "ydb_retry"
              [attribute.Bool "idempotent"
                 si.(trace.RetryLoopStartInfo.Idempotent)]
              :: anns
              ++ [EvClose s
                    (status_of_error d.(trace.RetryLoopDoneInfo.Error))
                    [attribute.Int "attempts"
                       d.(trace.RetryLoopDoneInfo.Attempts)]] in
          eval r t0 = true /\
          log (exec r t0) = log t0 ++ new /\
          length anns = n /\
          count_opens s new = 1%nat /\
          count_annotates s new = n /\
          count_closes s new = 1%nat)).
Proof.
  split; intros H; gate H; cbn [installed];
    intros n si evs d t0 Hn Hpos;
    (destruct evs as [|i evs]; [cbn in Hn; lia|]); cbv zeta;
    match goal with
    | |- context [EvOpen ?s ?c ?nm ?a :: annotations _ ?errs
                    ++ [EvClose _ ?st ?a']] =>
        destruct (chain_counts s c nm a errs st a') as (Ho & Ha & Hc)
    end;
    rewrite length_map in Ha; rewrite Hn in Ha;
    rewrite length_annotations, length_map.
  - pose proof (run_streaming_log
      trace.ScriptingStreamExecuteStartInfo.Context
      "ydb_scripting_stream_execute"
      (fun info =>
         [otlog.String "query"
            info.(trace.ScriptingStreamExecuteStartInfo.Query);
          otlog.String "params"
            (safe.Stringer sentinel
               info.(trace.ScriptingStreamExecuteStartInfo.Parameters))])
      trace.ScriptingStreamExecuteIntermediateInfo.Error
      trace.ScriptingStreamExecuteDoneInfo.Error (fun _ => [])
      si i evs d t0) as [Hev Hlog].
    repeat split; assumption.
  - pose proof (run_streaming_log
      trace.RetryLoopStartInfo.Context "ydb_retry"
      (fun info =>
         [attribute.Bool "idempotent"
            info.(trace.RetryLoopStartInfo.Idempotent)])
      trace.RetryLoopIntermediateInfo.Error
      trace.RetryLoopDoneInfo.Error
      (fun info =>
         [attribute.Int "attempts" info.(trace.RetryLoopDoneInfo.Attempts)])
      si i evs d t0) as [Hev Hlog].
    repeat split; assumption.
Qed.

Lemma C4_streaming_run_logs_open_annotates_close_witness :
  (Z.testbit 3 (Z.of_N 0) = true /\ Z.testbit 3 (Z.of_N 1) = true) /\
  installed (trace.OnStreamExecute (Scripting 0 "<failed>" 3))
    (fun h =>
       log (exec (run_streaming h q2_start q2_intermediates q2_done)
              empty_tracer) =
       [EvOpen 0 None "ydb_scripting_stream_execute"
          [otlog.String "query" "q2"; otlog.String "params" "{}"];
        EvAnnotate 0 [attribute.Bool "error" false];
        EvAnnotate 0 [attribute.Bool "error" true; otlog.String "message" "x"];
        EvClose 0 (StatusError "y") []]) /\
  installed (trace.OnRetry (Retry 1 3))
    (fun h =>
       log (exec (run_streaming h retry_start retry_intermediates retry_done)
              empty_tracer) =
       [EvOpen 0 (Some 7%nat) "ydb_retry" [attribute.Bool "idempotent" true];
        EvAnnotate 0 [attribute.Bool "error" true; otlog.String "message" "x"];
        EvAnnotate 0 [attribute.Bool "error" false];
        EvClose 0 StatusOK [attribute.Int "attempts" 3]]).
Proof.
  destruct (C4_streaming_run_logs_open_annotates_close 0 1 "<failed>" 3)
    as [Hs Hr].
  split; [split; reflexivity|]. split.
  - eapply installed_impl; [exact (Hs eq_refl)|]. intros h _ HP.
    destruct (HP 2%nat q2_start q2_intermediates q2_done empty_tracer eq_refl)
      as (_ & Hlog & _); [lia|exact Hlog].
  - eapply installed_impl; [exact (Hr eq_refl)|]. intros h _ HP.
    destruct (HP 2%nat retry_start retry_intermediates retry_done empty_tracer
                eq_refl) as (_ & Hlog & _); [lia|exact Hlog].
Defined.

Lemma attr_writes_app (key : string) (l1 l2 : list TraceEvent) :
  attr_writes key (l1 ++ l2) = attr_writes key l1 ++ attr_writes key l2.
Proof.
  unfold attr_writes. now rewrite flat_map_app, List.filter_app, map_app.
Qed.

Lemma attr_writes_cons (key : string) (ev : TraceEvent) (l : list TraceEvent) :
  attr_writes key (ev :: l) = attr_writes key [ev] ++ attr_writes key l.
Proof. apply (attr_writes_app key [ev] l). Qed.

(** Intermediate events write the "error" and "message" attributes only. *)
Lemma attr_writes_annotations (key : string) (s : Span) (errs : list error) :
  String.eqb key "error" = false ->
  String.eqb key "message" = false ->
  attr_writes key (annotations s errs) = [].
Proof.
  intros He Hm. induction errs as [|err errs IH]; [reflexivity|].
  unfold annotations in *. cbn [map]. rewrite attr_writes_cons, IH, app_nil_r.
  destruct err as [msg|]; unfold attr_writes; cbn; rewrite ?He, ?Hm; reflexivity.
Qed.

(** C7.  In an enabled retry-loop chain the boolean attribute "idempotent" is
    written exactly once, by the open of the span, with the idempotency flag
    of the start record, and the integer attribute "attempts" is written
    exactly once, by the close of the span, with the attempt count of the done
    record; no intermediate event writes either attribute. *)
Theorem C7_retry_attributes_written_once
  (retry_iota : N) (details : trace.Details) :
  Z.testbit details (Z.of_N retry_iota) = true ->
  installed (trace.OnRetry (Retry retry_iota details))
    (fun h =>
       forall si i evs d t0,
         let s := length (spans t0) in
         let anns :=
           annotations s
             (map trace.RetryLoopIntermediateInfo.Error (i :: evs)) in
         let opening :=
           EvOpen s si.(trace.RetryLoopStartInfo.Context) "ydb_retry"
             [attribute.Bool "idempotent"
                si.(trace.RetryLoopStartInfo.Idempotent)] in
         let closing :=
           EvClose s (status_of_error d.(trace.RetryLoopDoneInfo.Error))
             [attribute.Int "attempts" d.(trace.RetryLoopDoneInfo.Attempts)] in
         let new := opening :: anns ++ [closing] in
         log (exec (h si) t0) = log t0 ++ [opening] /\
         log (exec (run_streaming h si (i :: evs) d) t0) = log t0 ++ new /\
         attr_writes "idempotent" new =
           [VBool si.(trace.RetryLoopStartInfo.Idempotent)] /\
         attr_writes "idempotent" [opening] =
           [VBool si.(trace.RetryLoopStartInfo.Idempotent)] /\
         attr_writes "attempts" new =
           [VInt d.(trace.RetryLoopDoneInfo.Attempts)] /\
         attr_writes "attempts" [closing] =
           [VInt d.(trace.RetryLoopDoneInfo.Attempts)] /\
         attr_writes "idempotent" anns = [] /\
         attr_writes "attempts" anns = []).
Proof.
  intros H. gate H. cbn [installed]. intros si i evs d t0. cbv zeta.
  pose proof (run_streaming_log
      trace.RetryLoopStartInfo.Context "ydb_retry"
      (fun info =>
         [attribute.Bool "idempotent"
            info.(trace.RetryLoopStartInfo.Idempotent)])
      trace.RetryLoopIntermediateInfo.Error
      trace.RetryLoopDoneInfo.Error
      (fun info =>
         [attribute.Int "attempts" info.(trace.RetryLoopDoneInfo.Attempts)])
      si i evs d t0) as [_ Hlog].
  cbv zeta in Hlog.
  assert (Hi : forall errs,
             attr_writes "idempotent" (annotations (length (spans t0)) errs) = [])
    by (intros; now apply attr_writes_annotations).
  assert (Ha : forall errs,
             attr_writes "attempts" (annotations (length (spans t0)) errs) = [])
    by (intros; now apply attr_writes_annotations).
  split; [run_handler; apply log_open_span|].
  split; [exact Hlog|].
  rewrite (attr_writes_cons "idempotent" (EvOpen _ _ _ _)),
    (attr_writes_cons "attempts" (EvOpen _ _ _ _)), !attr_writes_app, Hi, Ha.
  repeat split.
Qed.

Lemma C7_retry_attributes_written_once_witness :
  Z.testbit 2 (Z.of_N 1) = true /\
  installed (trace.OnRetry (Retry 1 2))
    (fun h =>
       let l := log (exec (run_streaming h retry_start retry_intermediates
                             retry_done) empty_tracer) in
       attr_writes "idempotent" l = [VBool true] /\
       attr_writes "attempts" l = [VInt 3]).
Proof.
  split; [reflexivity|].
  eapply installed_impl;
    [exact (C7_retry_attributes_written_once 1 2 eq_refl)|].
  intros h _ HP. cbv zeta.
  destruct (HP retry_start
              {| trace.RetryLoopIntermediateInfo.Error := Some "x"%string |}
              [ {| trace.RetryLoopIntermediateInfo.Error := None |} ]
              retry_done empty_tracer)
    as (_ & Hlog & Hidem & _ & Hatt & _).
  fold retry_intermediates in Hlog. rewrite Hlog. split; assumption.
Defined.

(** C8.  In an enabled streaming chain (scripting stream execute, retry loop),
    invoking the intermediate continuation while the span is open annotates
    that span with one non-terminal event whose attributes are derived from
    the error of the intermediate record, leaves the span open, and returns a
    further continuation, the terminal one of that span.  In every state of
    the tracer, invoking the intermediate continuation closes no span: it adds
    no close event and changes no span's closed status. *)
Theorem C8_intermediate_annotates_never_closes
  (scripting_iota retry_iota : N) (sentinel : string) (details : trace.Details) :
  (Z.testbit details (Z.of_N scripting_iota) = true ->
   installed
     (trace.OnStreamExecute (Scripting scripting_iota sentinel details))
     (fun h =>
        forall si t0 i t,
          let s := length (spans t0) in
          let inter := eval (h si) t0 in
          let t' := exec (inter i) t in
          (span_is_open t s = true ->
           log t' =
           log t ++
           [EvAnnotate s
              (error_attrs
                 i.(trace.ScriptingStreamExecuteIntermediateInfo.Error))] /\
           span_is_open t' s = true /\
           closes_with (eval (inter i) t) s
             (fun d => status_of_error
                         d.(trace.ScriptingStreamExecuteDoneInfo.Error))) /\
          (forall s',
             count_closes s' (log t') = count_closes s' (log t) /\
             span_is_closed t' s' = span_is_closed t s'))) /\
  (Z.testbit details (Z.of_N retry_iota) = true ->
   installed (trace.OnRetry (Retry retry_iota details))
     (fun h =>
        forall si t0 i t,
          let s := length (spans t0) in
          let inter := eval (h si) t0 in
          let t' := exec (inter i) t in
          (span_is_open t s = true ->
           log t' =
           log t ++
           [EvAnnotate s
              (error_attrs i.(trace.RetryLoopIntermediateInfo.Error))] /\
           span_is_open t' s = true /\
           closes_with (eval (inter i) t) s
             (fun d => status_of_error d.(trace.RetryLoopDoneInfo.Error))) /\
          (forall s',
             count_closes s' (log t') = count_closes s' (log t) /\
             span_is_closed t' s' = span_is_closed t s'))).
Proof.
  split; intros H; gate H; cbn [installed]; intros si t0 i t; cbv zeta;
    run_handler.
  - split.
    + intros Hopen.
      rewrite annotate_span_log, annotate_span_is_open, Hopen.
      split; [reflexivity|]. split; [reflexivity|].
      eapply finish_closes_with with (A := fun _ => []); reflexivity.
    + intros s'. rewrite annotate_span_log, annotate_span_is_closed.
      split; [|reflexivity].
      destruct (span_is_open t (length (spans t0))); [|reflexivity].
      rewrite count_closes_snoc. cbn [is_close_of]. lia.
  - split.
    + intros Hopen.
      rewrite annotate_span_log, annotate_span_is_open, Hopen.
      split; [reflexivity|]. split; [reflexivity|].
      eapply finish_closes_with
        with (A := fun d => [attribute.Int "attempts"
                               d.(trace.RetryLoopDoneInfo.Attempts)]);
        reflexivity.
    + intros s'. rewrite annotate_span_log, annotate_span_is_closed.
      split; [|reflexivity].
      destruct (span_is_open t (length (spans t0))); [|reflexivity].
      rewrite count_closes_snoc. cbn [is_close_of]. lia.
Qed.

Lemma C8_intermediate_annotates_never_closes_witness :
  (Z.testbit 3 (Z.of_N 0) = true /\ Z.testbit 3 (Z.of_N 1) = true) /\
  installed (trace.OnStreamExecute (Scripting 0 "<failed>" 3))
    (fun h =>
       let t1 := exec (h q2_start) empty_tracer in
       let t2 :=
         exec (eval (h q2_start) empty_tracer
                 {| trace.ScriptingStreamExecuteIntermediateInfo.Error :=
                      Some "x"%string |}) t1 in
       log t2 =
       log t1 ++
       [EvAnnotate 0 [attribute.Bool "error" true; otlog.String "message" "x"]] /\
       span_is_open t2 0 = true) /\
  installed (trace.OnRetry (Retry 1 3))
    (fun h =>
       let t1 := exec (h retry_start) empty_tracer in
       let t2 :=
         exec (eval (h retry_start) empty_tracer
                 {| trace.RetryLoopIntermediateInfo.Error := None |}) t1 in
       log t2 = log t1 ++ [EvAnnotate 0 [attribute.Bool "error" false]] /\
       span_is_open t2 0 = true).
Proof.
  destruct (C8_intermediate_annotates_never_closes 0 1 "<failed>" 3)
    as [Hs Hr].
  split; [split; reflexivity|]. split.
  - eapply installed_impl; [exact (Hs eq_refl)|]. intros h Hh HP. cbv zeta.
    assert (Hopen : span_is_open (exec (h q2_start) empty_tracer) 0 = true)
      by (injection Hh as <-; reflexivity).
    destruct (HP q2_start empty_tracer
                {| trace.ScriptingStreamExecuteIntermediateInfo.Error :=
                     Some "x"%string |}
                (exec (h q2_start) empty_tracer)) as [Hann _].
    destruct (Hann Hopen) as (Hlog & Hop & _). split; assumption.
  - eapply installed_impl; [exact (Hr eq_refl)|]. intros h Hh HP. cbv zeta.
    assert (Hopen : span_is_open (exec (h retry_start) empty_tracer) 0 = true)
      by (injection Hh as <-; reflexivity).
    destruct (HP retry_start empty_tracer
                {| trace.RetryLoopIntermediateInfo.Error := None |}
                (exec (h retry_start) empty_tracer)) as [Hann _].
    destruct (Hann Hopen) as (Hlog & Hop & _). split; assumption.
Defined.

(** ** C3: a span is closed at most once *)

Lemma span_closed_or_open (t : Tracer) (s : Span) :
  (s < length (spans t))%nat ->
  span_is_closed t s || span_is_open t s = true.
Proof.
  intros Hlt. unfold span_is_closed, span_is_open.
  destruct (lookup_lt_is_Some_2 _ _ Hlt) as [sp ->].
  now destruct (is_closed (running sp)).
Qed.

Lemma finish_closes_once {D : Type} (s : Span) (E : D -> error)
  (A : D -> list KeyValue) (k : D -> M unit) :
  (forall d t, exec (k d) t = exec (close_span s (E d) (A d)) t) ->
  keeps_wf_done k /\ closes_once k s.
Proof.
  intros Hk. split.
  - intros d t Hwf. rewrite Hk. now apply tracer_wf_close.
  - intros d t Hwf Hlt. cbv zeta. rewrite Hk.
    assert (Hwf' : tracer_wf (exec (close_span s (E d) (A d)) t))
      by now apply tracer_wf_close.
    split; [exact Hwf'|]. split.
    + destruct (Hwf' s) as [_ ->].
      rewrite close_span_is_closed, Nat.eqb_refl. cbn [andb].
      now rewrite span_closed_or_open.
    + intros d'. rewrite Hk. apply close_span_twice.
Qed.

Lemma not_closed_after_open (ctx : Context) (name : string)
  (attrs : list KeyValue) (t0 : Tracer) :
  tracer_wf t0 ->
  count_closes (length (spans t0))
    (log (exec (open_span ctx name attrs) t0)) = 0%nat.
Proof.
  intros Hwf.
  destruct (tracer_wf_open ctx name attrs t0 Hwf (length (spans t0)))
    as [_ ->].
  now rewrite (span_open_not_closed _ _ (open_span_opens ctx name attrs t0)).
Qed.

Lemma simple_chain_closes_once {S D : Type} (ctx : S -> Context)
  (name : string) (attrs : S -> list KeyValue)
  (K : Span -> D -> M unit) (E : D -> error) (A : D -> list KeyValue) :
  (forall s d t, exec (K s d) t = exec (close_span s (E d) (A d)) t) ->
  let h : trace.simple S D := fun info =>
    start <- startSpan (ctx info) name (attrs info) ;; ret (K start) in
  keeps_wf_simple h /\ simple_closes_once h.
Proof.
  intros HK h. split.
  - intros si t Hwf. unfold h. run_handler. split.
    + now apply tracer_wf_open.
    + eapply finish_closes_once. apply HK.
  - intros si t0 Hwf. unfold h. run_handler. split.
    + now apply not_closed_after_open.
    + eapply finish_closes_once. apply HK.
Qed.

Lemma streaming_chain_closes_once {S I D : Type} (ctx : S -> Context)
  (name : string) (attrs : S -> list KeyValue) (err : I -> error)
  (E : D -> error) (A : D -> list KeyValue) :
  let h : trace.streaming S I D := fun info =>
    start <- startSpan (ctx info) name (attrs info) ;;
    ret (fun info => intermediate start (err info) ;;
                     ret (fun info => finish start (E info) (A info))) in
  keeps_wf_streaming h /\ streaming_closes_once h.
Proof.
  intros h. split.
  - intros si t Hwf. unfold h. run_handler. split.
    + now apply tracer_wf_open.
    + apply keeps_wf_intermediate.
      eapply finish_closes_once with (E := E) (A := A). reflexivity.
  - intros si t0 i t1 Hwf. unfold h. run_handler. split.
    + now apply not_closed_after_open.
    + eapply finish_closes_once with (E := E) (A := A). reflexivity.
Qed.

(** C3.  Each span opened by a start handler is closed at most once, and
    exactly once when the driver completes the chain.  The tracer starts
    consistent; in a consistent tracer no span has been closed more than once;
    every handler of every enabled chain, and every continuation it returns,
    keeps the tracer consistent in whatever state it is called.  The span of a
    chain is not closed when its start handler returns; after the terminal
    continuation has been invoked it has been closed exactly once, and
    invoking the same terminal continuation again does not close it a second
    time: the tracer is left unchanged. *)
Theorem C3_spans_closed_at_most_once
  (scripting_iota retry_iota : N) (sentinel : string) (details : trace.Details) :
  tracer_wf empty_tracer /\
  (forall t s, tracer_wf t -> (count_closes s (log t) <= 1)%nat) /\
  (Z.testbit details (Z.of_N scripting_iota) = true ->
   let t := Scripting scripting_iota sentinel details in
   installed (trace.OnExecute t)
     (fun h => keeps_wf_simple h /\ simple_closes_once h) /\
   installed (trace.OnStreamExecute t)
     (fun h => keeps_wf_streaming h /\ streaming_closes_once h) /\
   installed (trace.OnExplain t)
     (fun h => keeps_wf_simple h /\ simple_closes_once h) /\
   installed (trace.OnClose t)
     (fun h => keeps_wf_simple h /\ simple_closes_once h)) /\
  (Z.testbit details (Z.of_N retry_iota) = true ->
   installed (trace.OnRetry (Retry retry_iota details))
     (fun h => keeps_wf_streaming h /\ streaming_closes_once h)).
Proof.
  split; [apply tracer_wf_empty|].
  split; [intros t s Hwf; now apply tracer_wf_closed_once|].
  split; intros H; cbv zeta; gate H; cbn [installed].
  - split; [|split; [|split]].
    + apply (simple_chain_closes_once
               trace.ScriptingExecuteStartInfo.Context
               "ydb_scripting_execute"
               (fun info =>
                  [otlog.String "query"
                     info.(trace.ScriptingExecuteStartInfo.Query);
                   otlog.String "params"
                     (safe.Stringer sentinel
                        info.(trace.ScriptingExecuteStartInfo.Parameters))])
               (fun start info =>
                  if is_nil info.(trace.ScriptingExecuteDoneInfo.Error)
                  then finish start
                         (safe.Err info.(trace.ScriptingExecuteDoneInfo.Result))
                         []
                  else finish start
                         info.(trace.ScriptingExecuteDoneInfo.Error) [])
               (fun d =>
                  if is_nil d.(trace.ScriptingExecuteDoneInfo.Error)
                  then safe.Err d.(trace.ScriptingExecuteDoneInfo.Result)
                  else d.(trace.ScriptingExecuteDoneInfo.Error))
               (fun _ => [])).
      intros s d t. apply execute_done_runs.
    + apply (streaming_chain_closes_once
               trace.ScriptingStreamExecuteStartInfo.Context
               "ydb_scripting_stream_execute"
               (fun info =>
                  [otlog.String "query"
                     info.(trace.ScriptingStreamExecuteStartInfo.Query);
                   otlog.String "params"
                     (safe.Stringer sentinel
                        info.(trace.ScriptingStreamExecuteStartInfo.Parameters))])
               trace.ScriptingStreamExecuteIntermediateInfo.Error
               trace.ScriptingStreamExecuteDoneInfo.Error
               (fun _ => [])).
    + apply (simple_chain_closes_once
               trace.ScriptingExplainStartInfo.Context
               "ydb_scripting_explain"
               (fun info =>
                  [otlog.String "query"
                     info.(trace.ScriptingExplainStartInfo.Query)])
               (fun start info =>
                  finish start info.(trace.ScriptingExplainDoneInfo.Error) [])
               trace.ScriptingExplainDoneInfo.Error (fun _ => [])).
      reflexivity.
    + apply (simple_chain_closes_once
               trace.ScriptingCloseStartInfo.Context
               "ydb_scripting_close"
               (fun _ => [])
               (fun start info =>
                  finish start info.(trace.ScriptingCloseDoneInfo.Error) [])
               trace.ScriptingCloseDoneInfo.Error (fun _ => [])).
      reflexivity.
  - apply (streaming_chain_closes_once
             trace.RetryLoopStartInfo.Context "ydb_retry"
             (fun info =>
                [attribute.Bool "idempotent"
                   info.(trace.RetryLoopStartInfo.Idempotent)])
             trace.RetryLoopIntermediateInfo.Error
             trace.RetryLoopDoneInfo.Error
             (fun info =>
                [attribute.Int "attempts"
                   info.(trace.RetryLoopDoneInfo.Attempts)])).
Qed.

Lemma C3_spans_closed_at_most_once_witness :
  (Z.testbit 3 (Z.of_N 0) = true /\ Z.testbit 3 (Z.of_N 1) = true) /\
  installed (trace.OnStreamExecute (Scripting 0 "<failed>" 3))
    (fun h =>
       let t1 := exec (h q2_start) empty_tracer in
       let done :=
         eval (eval (h q2_start) empty_tracer
                 {| trace.ScriptingStreamExecuteIntermediateInfo.Error := None |})
           t1 in
       let t2 := exec (done q2_done) t1 in
       count_closes 0 (log t1) = 0%nat /\
       count_closes 0 (log t2) = 1%nat /\
       exec (done q2_done) t2 = t2) /\
  installed (trace.OnRetry (Retry 1 3))
    (fun h => keeps_wf_streaming h /\ streaming_closes_once h).
Proof.
  destruct (C3_spans_closed_at_most_once 0 1 "<failed>" 3)
    as (Hwf & _ & Hs & Hr).
  split; [split; reflexivity|]. split; [|exact (Hr eq_refl)].
  destruct (Hs eq_refl) as (_ & Hstream & _).
  eapply installed_impl; [exact Hstream|].
  intros h Hh [_ Honce]. cbv zeta.
  assert (Hlen : (0 < length (spans (exec (h q2_start) empty_tracer)))%nat)
    by (injection Hh as <-; cbn; lia).
  assert (Hwf1 : tracer_wf (exec (h q2_start) empty_tracer))
    by (injection Hh as <-; exact (tracer_wf_open _ _ _ _ Hwf)).
  destruct (Honce q2_start empty_tracer
              {| trace.ScriptingStreamExecuteIntermediateInfo.Error := None |}
              (exec (h q2_start) empty_tracer) Hwf) as [Hzero Hdone].
  destruct (Hdone q2_done _ Hwf1 Hlen) as (_ & Hone & Hagain).
  split; [exact Hzero|]. split; [exact Hone|]. apply Hagain.
Defined.

(** ** C6: the guarded string formatter *)

(** C6.  For every value passed to the guarded string formatter whose natural
    string conversion fails, the formatter returns the fixed sentinel string;
    the fault does not reach the caller: the start handlers of the scripting
    execute and stream-execute chains, given such a value as parameters,
    return normally after opening the span with the attribute params set to
    the sentinel. *)
Theorem C6_failed_conversion_yields_sentinel
  (scripting_iota : N) (sentinel : string) (details : trace.Details)
  (v : safe.Stringer_value) :
  safe.String_method v = Panics ->
  safe.Stringer sentinel v = sentinel /\
  (Z.testbit details (Z.of_N scripting_iota) = true ->
   let t := Scripting scripting_iota sentinel details in
   installed (trace.OnExecute t)
     (fun h =>
        forall si t0,
          si.(trace.ScriptingExecuteStartInfo.Parameters) = v ->
          log (exec (h si) t0) =
          log t0 ++
          [EvOpen (length (spans t0))
             si.(trace.ScriptingExecuteStartInfo.Context)
             "ydb_scripting_execute"
             [otlog.String "query" si.(trace.ScriptingExecuteStartInfo.Query);
              otlog.String "params" sentinel]]) /\
   installed (trace.OnStreamExecute t)
     (fun h =>
        forall si t0,
          si.(trace.ScriptingStreamExecuteStartInfo.Parameters) = v ->
          log (exec (h si) t0) =
          log t0 ++
          [EvOpen (length (spans t0))
             si.(trace.ScriptingStreamExecuteStartInfo.Context)
             "ydb_scripting_stream_execute"
             [otlog.String "query"
                si.(trace.ScriptingStreamExecuteStartInfo.Query);
              otlog.String "params" sentinel]])).
Proof.
  intros Hv.
  assert (Hs : safe.Stringer sentinel v = sentinel)
    by (unfold safe.Stringer; now rewrite Hv).
  split; [exact Hs|]. intros H. cbv zeta. gate H. cbn [installed].
  split; intros si t0 ->; run_handler; rewrite log_open_span, Hs; reflexivity.
Qed.

Lemma C6_failed_conversion_yields_sentinel_witness :
  safe.String_method {| safe.String_method := Panics |} = Panics /\
  safe.Stringer "<failed>" {| safe.String_method := Panics |} = "<failed>"%string /\
  installed (trace.OnExecute (Scripting 0 "<failed>" 1))
    (fun h =>
       log (exec (h {| trace.ScriptingExecuteStartInfo.Context := None;
                       trace.ScriptingExecuteStartInfo.Query := "q1";
                       trace.ScriptingExecuteStartInfo.Parameters :=
                         {| safe.String_method := Panics |} |})
              empty_tracer) =
       [EvOpen 0 None "ydb_scripting_execute"
          [otlog.String "query" "q1"; otlog.String "params" "<failed>"]]).
Proof.
  destruct (C6_failed_conversion_yields_sentinel 0 "<failed>" 1
              {| safe.String_method := Panics |} eq_refl) as [Hs Hh].
  split; [reflexivity|]. split; [exact Hs|].
  destruct (Hh eq_refl) as [Hexec _].
  eapply installed_impl; [exact Hexec|].
  intros h _ HP.
  exact (HP {| trace.ScriptingExecuteStartInfo.Context := None;
               trace.ScriptingExecuteStartInfo.Query := "q1";
               trace.ScriptingExecuteStartInfo.Parameters :=
                 {| safe.String_method := Panics |} |}
            empty_tracer eq_refl).
Defined.

(** ** Further properties of the handler chains *)

(** The two-level chains, run from start to terminal event. *)
Lemma run_simple_log {S D : Type} (ctx : S -> Context) (name : string)
  (attrs : S -> list KeyValue) (K : Span -> D -> M unit)
  (E : D -> error) (A : D -> list KeyValue) (si : S) (d : D) (t0 : Tracer) :
  (forall s t, exec (K s d) t = exec (close_span s (E d) (A d)) t) ->
  let h : trace.simple S D := fun info =>
    start <- startSpan (ctx info) name (attrs info) ;; ret (K start) in
  log (exec (run_simple h si d) t0) =
  log t0 ++
  [EvOpen (length (spans t0)) (ctx si) name (attrs si);
   EvClose (length (spans t0)) (status_of_error (E d)) (A d)].
Proof.
  intros HK h. unfold h. run_handler.
  rewrite HK, close_span_log, open_span_opens, log_open_span, <- app_assoc.
  reflexivity.
Qed.

(** X1.  Every enabled two-level scripting chain (execute, explain, close),
    run from its start event to its terminal event, adds exactly two events to
    the tracer log: the open of a new span, named after the operation and
    carrying the attributes of the start record (query and params for execute,
    query alone for explain, none for close), then the close of that span,
    with no attributes; for explain and close the status is that of the done
    record's error. *)
Theorem X1_two_level_chains_log_open_then_close
  (scripting_iota : N) (sentinel : string) (details : trace.Details) :
  Z.testbit details (Z.of_N scripting_iota) = true ->
  let t := Scripting scripting_iota sentinel details in
  installed (trace.OnExecute t)
    (fun h => forall si d t0,
       log (exec (run_simple h si d) t0) =
       log t0 ++
       [EvOpen (length (spans t0))
          si.(trace.ScriptingExecuteStartInfo.Context) "ydb_scripting_execute"
          [otlog.String "query" si.(trace.ScriptingExecuteStartInfo.Query);
           otlog.String "params"
             (safe.Stringer sentinel
                si.(trace.ScriptingExecuteStartInfo.Parameters))];
        EvClose (length (spans t0)) (execute_status d) []]) /\
  installed (trace.OnExplain t)
    (fun h => forall si d t0,
       log (exec (run_simple h si d) t0) =
       log t0 ++
       [EvOpen (length (spans t0))
          si.(trace.ScriptingExplainStartInfo.Context) "ydb_scripting_explain"
          [otlog.String "query" si.(trace.ScriptingExplainStartInfo.Query)];
        EvClose (length (spans t0))
          (status_of_error d.(trace.ScriptingExplainDoneInfo.Error)) []]) /\
  installed (trace.OnClose t)
    (fun h => forall si d t0,
       log (exec (run_simple h si d) t0) =
       log t0 ++
       [EvOpen (length (spans t0))
          si.(trace.ScriptingCloseStartInfo.Context) "ydb_scripting_close" [];
        EvClose (length (spans t0))
          (status_of_error d.(trace.ScriptingCloseDoneInfo.Error)) []]).
Proof.
  intros H. cbv zeta. gate H. cbn [installed].
  split; [|split]; intros si d t0.
  - rewrite execute_status_eq.
    apply (run_simple_log
             trace.ScriptingExecuteStartInfo.Context "ydb_scripting_execute"
             (fun info =>
                [otlog.String "query"
                   info.(trace.ScriptingExecuteStartInfo.Query);
                 otlog.String "params"
                   (safe.Stringer sentinel
                      info.(trace.ScriptingExecuteStartInfo.Parameters))])
             (fun start info =>
                if is_nil info.(trace.ScriptingExecuteDoneInfo.Error)
                then finish start
                       (safe.Err info.(trace.ScriptingExecuteDoneInfo.Result))
                       []
                else finish start
                       info.(trace.ScriptingExecuteDoneInfo.Error) [])
             (fun d =>
                if is_nil d.(trace.ScriptingExecuteDoneInfo.Error)
                then safe.Err d.(trace.ScriptingExecuteDoneInfo.Result)
                else d.(trace.ScriptingExecuteDoneInfo.Error))
             (fun _ => [])).
    intros s t. apply execute_done_runs.
  - apply (run_simple_log
             trace.ScriptingExplainStartInfo.Context "ydb_scripting_explain"
             (fun info =>
                [otlog.String "query"
                   info.(trace.ScriptingExplainStartInfo.Query)])
             (fun start info =>
                finish start info.(trace.ScriptingExplainDoneInfo.Error) [])
             trace.ScriptingExplainDoneInfo.Error (fun _ => [])).
    reflexivity.
  - apply (run_simple_log
             trace.ScriptingCloseStartInfo.Context "ydb_scripting_close"
             (fun _ => [])
             (fun start info =>
                finish start info.(trace.ScriptingCloseDoneInfo.Error) [])
             trace.ScriptingCloseDoneInfo.Error (fun _ => [])).
    reflexivity.
Qed.

Lemma X1_two_level_chains_log_open_then_close_witness :
  Z.testbit 1 (Z.of_N 0) = true /\
  installed (trace.OnClose (Scripting 0 "<failed>" 1))
    (fun h =>
       log (exec (run_simple h
                    {| trace.ScriptingCloseStartInfo.Context := Some 4%nat |}
                    {| trace.ScriptingCloseDoneInfo.Error :=
                         Some "closed twice"%string |})
              empty_tracer) =
       [EvOpen 0 (Some 4%nat) "ydb_scripting_close" [];
        EvClose 0 (StatusError "closed twice") []]).
Proof.
  split; [reflexivity|].
  destruct (X1_two_level_chains_log_open_then_close 0 "<failed>" 1 eq_refl)
    as (_ & _ & Hclose).
  eapply installed_impl; [exact Hclose|].
  intros h _ HP.
  exact (HP {| trace.ScriptingCloseStartInfo.Context := Some 4%nat |}
            {| trace.ScriptingCloseDoneInfo.Error :=
                 Some "closed twice"%string |} empty_tracer).
Defined.

Lemma confined_ext {A B : Type} (s : Span) (m : M A) (m' : M B) :
  (forall t, exec m t = exec m' t) -> confined_to s m' -> confined_to s m.
Proof. intros Heq Hm t. rewrite Heq. apply Hm. Qed.

Lemma annotate_span_confined (s : Span) (attrs : list KeyValue) :
  confined_to s (annotate_span s attrs).
Proof.
  intros t. split; [|split].
  - rewrite annotate_span_log. destruct (span_is_open t s).
    + exists [EvAnnotate s attrs]. split; [reflexivity|].
      now constructor.
    + exists []. now rewrite app_nil_r.
  - apply annotate_span_length.
  - intros s' Hne. unfold exec, annotate_span.
    destruct (spans t !! s) as [sp|]; [|reflexivity].
    destruct (is_closed (running sp)); [reflexivity|].
    cbn [snd spans]. now rewrite list_lookup_insert_ne.
Qed.

Lemma close_span_confined (s : Span) (err : error) (attrs : list KeyValue) :
  confined_to s (close_span s err attrs).
Proof.
  intros t. split; [|split].
  - rewrite close_span_log. destruct (span_is_open t s).
    + exists [EvClose s (status_of_error err) attrs]. split; [reflexivity|].
      now constructor.
    + exists []. now rewrite app_nil_r.
  - apply close_span_length.
  - intros s' Hne. unfold exec, close_span.
    destruct (spans t !! s) as [sp|]; [|reflexivity].
    destruct (is_closed (running sp)); [reflexivity|].
    cbn [snd spans]. now rewrite list_lookup_insert_ne.
Qed.

Lemma simple_chain_confined {S D : Type} (ctx : S -> Context)
  (name : string) (attrs : S -> list KeyValue)
  (K : Span -> D -> M unit) (E : D -> error) (A : D -> list KeyValue) :
  (forall s d t, exec (K s d) t = exec (close_span s (E d) (A d)) t) ->
  let h : trace.simple S D := fun info =>
    start <- startSpan (ctx info) name (attrs info) ;; ret (K start) in
  simple_confined h.
Proof.
  intros HK h. split.
  - intros si t0. exists (ctx si), name, (attrs si). split; reflexivity.
  - intros si t0 d. unfold h. run_handler.
    eapply confined_ext; [apply HK | apply close_span_confined].
Qed.

Lemma streaming_chain_confined {S I D : Type} (ctx : S -> Context)
  (name : string) (attrs : S -> list KeyValue) (err : I -> error)
  (E : D -> error) (A : D -> list KeyValue) :
  let h : trace.streaming S I D := fun info =>
    start <- startSpan (ctx info) name (attrs info) ;;
    ret (fun info => intermediate start (err info) ;;
                     ret (fun info => finish start (E info) (A info))) in
  streaming_confined h.
Proof.
  intros h. split.
  - intros si t0. exists (ctx si), name, (attrs si). split; reflexivity.
  - intros si t0 i. unfold h. run_handler. split.
    + eapply confined_ext; [|apply annotate_span_confined].
      intros t. run_handler. reflexivity.
    + intros t1 d. run_handler.
      eapply confined_ext; [|apply close_span_confined].
      intros t. reflexivity.
Qed.

(** X2.  Chains do not touch each other's spans.  The start handler of every
    enabled chain opens exactly one span, under a handle that no span of the
    tracer has yet, and changes no existing span; every continuation of the
    chain (intermediate or terminal), in whatever state of the tracer it is
    invoked and however the calls of other chains are interleaved with it,
    records only events of the span its own start handler opened, opens no
    span, and leaves every other span exactly as it was. *)
Theorem X2_chains_are_confined_to_their_span
  (scripting_iota retry_iota : N) (sentinel : string) (details : trace.Details) :
  (Z.testbit details (Z.of_N scripting_iota) = true ->
   let t := Scripting scripting_iota sentinel details in
   installed (trace.OnExecute t) simple_confined /\
   installed (trace.OnStreamExecute t) streaming_confined /\
   installed (trace.OnExplain t) simple_confined /\
   installed (trace.OnClose t) simple_confined) /\
  (Z.testbit details (Z.of_N retry_iota) = true ->
   installed (trace.OnRetry (Retry retry_iota details)) streaming_confined).
Proof.
  split; intros H; cbv zeta; gate H; cbn [installed].
  - split; [|split; [|split]].
    + apply (simple_chain_confined
               trace.ScriptingExecuteStartInfo.Context
               "ydb_scripting_execute"
               (fun info =>
                  [otlog.String "query"
                     info.(trace.ScriptingExecuteStartInfo.Query);
                   otlog.String "params"
                     (safe.Stringer sentinel
                        info.(trace.ScriptingExecuteStartInfo.Parameters))])
               (fun start info =>
                  if is_nil info.(trace.ScriptingExecuteDoneInfo.Error)
                  then finish start
                         (safe.Err info.(trace.ScriptingExecuteDoneInfo.Result))
                         []
                  else finish start
                         info.(trace.ScriptingExecuteDoneInfo.Error) [])
               (fun d =>
                  if is_nil d.(trace.ScriptingExecuteDoneInfo.Error)
                  then safe.Err d.(trace.ScriptingExecuteDoneInfo.Result)
                  else d.(trace.ScriptingExecuteDoneInfo.Error))
               (fun _ => [])).
      intros s d t. apply execute_done_runs.
    + apply (streaming_chain_confined
               trace.ScriptingStreamExecuteStartInfo.Context
               "ydb_scripting_stream_execute"
               (fun info =>
                  [otlog.String "query"
                     info.(trace.ScriptingStreamExecuteStartInfo.Query);
                   otlog.String "params"
                     (safe.Stringer sentinel
                        info.(trace.ScriptingStreamExecuteStartInfo.Parameters))])
               trace.ScriptingStreamExecuteIntermediateInfo.Error
               trace.ScriptingStreamExecuteDoneInfo.Error
               (fun _ => [])).
    + apply (simple_chain_confined
               trace.ScriptingExplainStartInfo.Context
               "ydb_scripting_explain"
               (fun info =>
                  [otlog.String "query"
                     info.(trace.ScriptingExplainStartInfo.Query)])
               (fun start info =>
                  finish start info.(trace.ScriptingExplainDoneInfo.Error) [])
               trace.ScriptingExplainDoneInfo.Error (fun _ => [])).
      reflexivity.
    + apply (simple_chain_confined
               trace.ScriptingCloseStartInfo.Context
               "ydb_scripting_close"
               (fun _ => [])
               (fun start info =>
                  finish start info.(trace.ScriptingCloseDoneInfo.Error) [])
               trace.ScriptingCloseDoneInfo.Error (fun _ => [])).
      reflexivity.
  - apply (streaming_chain_confined
             trace.RetryLoopStartInfo.Context "ydb_retry"
             (fun info =>
                [attribute.Bool "idempotent"
                   info.(trace.RetryLoopStartInfo.Idempotent)])
             trace.RetryLoopIntermediateInfo.Error
             trace.RetryLoopDoneInfo.Error
             (fun info =>
                [attribute.Int "attempts"
                   info.(trace.RetryLoopDoneInfo.Attempts)])).
Qed.

Lemma X2_chains_are_confined_to_their_span_witness :
  (Z.testbit 3 (Z.of_N 0) = true /\ Z.testbit 3 (Z.of_N 1) = true) /\
  installed (trace.OnExecute (Scripting 0 "<failed>" 3)) simple_confined /\
  installed (trace.OnRetry (Retry 1 3)) streaming_confined.
Proof.
  destruct (X2_chains_are_confined_to_their_span 0 1 "<failed>" 3) as [Hs Hr].
  split; [split; reflexivity|].
  split; [exact (proj1 (Hs eq_refl)) | exact (Hr eq_refl)].
Defined.

(** X3.  Each constructor looks at the detail bit of its own kind only: two
    masks that agree on that bit give the same handler struct, so setting or
    clearing the bit of another kind changes nothing, and the handlers of a
    union of masks are installed exactly when one of the masks installs
    them. *)
Theorem X3_constructors_depend_on_their_bit_only
  (scripting_iota retry_iota : N) (sentinel : string) (d1 d2 : trace.Details) :
  (Z.testbit d1 (Z.of_N scripting_iota) = Z.testbit d2 (Z.of_N scripting_iota) ->
   Scripting scripting_iota sentinel d1 = Scripting scripting_iota sentinel d2) /\
  (Z.testbit d1 (Z.of_N retry_iota) = Z.testbit d2 (Z.of_N retry_iota) ->
   Retry retry_iota d1 = Retry retry_iota d2) /\
  (scripting_iota <> retry_iota ->
   Scripting scripting_iota sentinel (Z.lor d1 (RetryEvents retry_iota)) =
   Scripting scripting_iota sentinel d1 /\
   Retry retry_iota (Z.lor d1 (ScriptingEvents scripting_iota)) =
   Retry retry_iota d1) /\
  non_nil (trace.OnExecute (Scripting scripting_iota sentinel (Z.lor d1 d2))) =
  non_nil (trace.OnExecute (Scripting scripting_iota sentinel d1)) ||
  non_nil (trace.OnExecute (Scripting scripting_iota sentinel d2)) /\
  non_nil (trace.OnRetry (Retry retry_iota (Z.lor d1 d2))) =
  non_nil (trace.OnRetry (Retry retry_iota d1)) ||
  non_nil (trace.OnRetry (Retry retry_iota d2)).
Proof.
  assert (Hs : forall a b,
             Z.testbit a (Z.of_N scripting_iota) =
             Z.testbit b (Z.of_N scripting_iota) ->
             Scripting scripting_iota sentinel a =
             Scripting scripting_iota sentinel b).
  { intros a b Hab. unfold Scripting, ScriptingEvents.
    now rewrite !land_bit_eqb, Hab. }
  assert (Hr : forall a b,
             Z.testbit a (Z.of_N retry_iota) = Z.testbit b (Z.of_N retry_iota) ->
             Retry retry_iota a = Retry retry_iota b).
  { intros a b Hab. unfold Retry, RetryEvents.
    now rewrite !land_bit_eqb, Hab. }
  assert (Hbit : forall i j : N, i <> j ->
             Z.testbit (trace.bit i) (Z.of_N j) = false).
  { intros i j Hij. unfold trace.bit. rewrite Z.shiftl_1_l.
    apply Z.pow2_bits_false. lia. }
  split; [apply Hs|]. split; [apply Hr|]. split.
  - intros Hne. split; [apply Hs | apply Hr];
      unfold RetryEvents, ScriptingEvents;
      rewrite Z.lor_spec, Hbit by congruence; apply orb_false_r.
  - unfold Scripting, Retry, ScriptingEvents, RetryEvents.
    rewrite !land_bit_eqb, !Z.lor_spec.
    split.
    + now destruct (Z.testbit d1 (Z.of_N scripting_iota)),
        (Z.testbit d2 (Z.of_N scripting_iota)).
    + now destruct (Z.testbit d1 (Z.of_N retry_iota)),
        (Z.testbit d2 (Z.of_N retry_iota)).
Qed.

Lemma X3_constructors_depend_on_their_bit_only_witness :
  (Z.testbit 5 (Z.of_N 0) = Z.testbit 1 (Z.of_N 0) /\
   Z.testbit 5 (Z.of_N 1) = Z.testbit 1 (Z.of_N 1) /\ 0%N <> 1%N) /\
  Scripting 0 "<failed>" 5 = Scripting 0 "<failed>" 1 /\
  Retry 1 5 = Retry 1 1 /\
  Scripting 0 "<failed>" (Z.lor 5 (RetryEvents 1)) = Scripting 0 "<failed>" 5.
Proof.
  destruct (X3_constructors_depend_on_their_bit_only 0 1 "<failed>" 5 1)
    as (Hs & Hr & Hother & _).
  split; [repeat split; discriminate|].
  split; [apply Hs; reflexivity|].
  split; [apply Hr; reflexivity|].
  apply Hother. discriminate.
Defined.

(** ** The load generator *)

Lemma int_wrap_small (z : Z) : - 2 ^ 63 <= z < 2 ^ 63 -> int_wrap z = z.
Proof.
  intros Hz. unfold int_wrap. rewrite Z.mod_small; lia.
Qed.

Lemma uint64_wrap_small (z : Z) : 0 <= z < 2 ^ 64 -> uint64_wrap z = z.
Proof. intros Hz. unfold uint64_wrap. now apply Z.mod_small. Qed.

Lemma map_seqZ_shift {A : Type} (f : Z -> A) (c n : Z) :
  map (fun j => f (j + c)) (seqZ 0 n) = map f (seqZ c n).
Proof.
  replace (seqZ c n) with (seqZ (c + 0) n) by (f_equal; lia).
  rewrite <- fmap_add_seqZ.
  change (Z.add c <$> seqZ 0 n) with (map (Z.add c) (seqZ 0 n)).
  rewrite map_map. apply map_ext. intros j. f_equal. lia.
Qed.

Section BenchLoops.

Variable time_Now : Z -> Z.

(** The inner loop, from any [i] on, with enough fuel. *)
Lemma upsert_rows_from (shift batchSize : Z) :
  0 <= shift -> shift + batchSize + 3 < 2 ^ 63 ->
  forall (fuel : nat) (i : Z) (rows : list bench.Value),
    0 <= i -> (Z.to_nat (batchSize - i) <= fuel)%nat ->
    bench.upsert_rows time_Now fuel i shift batchSize rows =
    rows ++ map (fun j => bench.series_row time_Now (j + shift + 3))
              (seqZ i (batchSize - i)).
Proof.
  intros Hshift Hbound fuel.
  induction fuel as [|fuel IH]; intros i rows Hi Hfuel.
  - rewrite seqZ_nil by lia. cbn. now rewrite app_nil_r.
  - cbn [bench.upsert_rows]. destruct (Z.ltb_spec i batchSize) as [Hlt|Hge].
    + rewrite (int_wrap_small (i + 1)) by lia.
      rewrite (int_wrap_small (i + shift)) by lia.
      rewrite (int_wrap_small (i + shift + 3)) by lia.
      rewrite IH by lia.
      rewrite (seqZ_cons i (batchSize - i)) by lia.
      replace (Z.succ i) with (i + 1) by lia.
      replace (Z.pred (batchSize - i)) with (batchSize - (i + 1)) by lia.
      cbn [map]. now rewrite <- app_assoc.
    + rewrite seqZ_nil by lia. cbn. now rewrite app_nil_r.
Qed.

(** One batch: the rows for the numbers [shift+3 .. shift+batchSize+2]. *)
Lemma upsert_rows_batch (shift batchSize : Z) :
  0 <= shift -> shift + batchSize + 3 < 2 ^ 63 ->
  bench.upsert_rows time_Now (Z.to_nat batchSize) 0 shift batchSize [] =
  map (bench.series_row time_Now) (seqZ (shift + 3) batchSize).
Proof.
  intros Hshift Hbound.
  rewrite upsert_rows_from by (try assumption; lia).
  cbn [app]. rewrite Z.sub_0_r.
  rewrite <- (map_seqZ_shift (bench.series_row time_Now) (shift + 3)).
  apply map_ext. intros j. f_equal. lia.
Qed.

(** The spawning loop, from any [shift] on: [n] is the number of batches
    still to come. *)
Lemma upsert_spawns_from (rowsLen batchSize : Z) :
  0 < batchSize -> rowsLen + batchSize + 3 < 2 ^ 63 ->
  forall (n fuel : nat) (shift : Z),
    0 <= shift -> (n <= fuel)%nat ->
    rowsLen <= shift + Z.of_nat n * batchSize ->
    (n = 0%nat \/ shift + (Z.of_nat n - 1) * batchSize < rowsLen) ->
    bench.upsert_spawns time_Now fuel shift rowsLen batchSize =
    map (fun k =>
           bench.ListValue
             (map (bench.series_row time_Now)
                (seqZ (shift + k * batchSize + 3) batchSize)))
      (seqZ 0 (Z.of_nat n)).
Proof.
  intros Hbs Hbound n.
  induction n as [|n IH]; intros fuel shift Hshift Hfuel Hup Hlow.
  - rewrite seqZ_nil by lia. cbn [map].
    destruct fuel as [|fuel]; [reflexivity|].
    cbn [bench.upsert_spawns].
    destruct (Z.ltb_spec shift rowsLen); [lia|reflexivity].
  - destruct fuel as [|fuel]; [lia|].
    destruct Hlow as [Hlow|Hlow]; [discriminate|].
    assert (Hlt : shift < rowsLen) by nia.
    cbn [bench.upsert_spawns].
    destruct (Z.ltb_spec shift rowsLen); [|lia].
    rewrite upsert_rows_batch by lia.
    rewrite (int_wrap_small (shift + batchSize)) by lia.
    rewrite (IH fuel (shift + batchSize)); [| lia | lia | nia |].
    + rewrite (seqZ_cons 0 (Z.of_nat (S n))) by lia. cbn [map].
      rewrite Z.mul_0_l, Z.add_0_r. f_equal.
      replace (Z.pred (Z.of_nat (S n))) with (Z.of_nat n) by lia.
      change (Z.succ 0) with 1.
      rewrite <- (map_seqZ_shift _ 1 (Z.of_nat n)).
      apply map_ext. intros k. do 3 f_equal. lia.
    + destruct n as [|n]; [now left|right]. nia.
Qed.

(** The rows of [n] consecutive batches, one after the other. *)
Lemma batches_rows (batchSize : Z) (n : nat) :
  0 <= batchSize ->
  flat_map bench.batch_rows
    (map (fun k =>
            bench.ListValue
              (map (bench.series_row time_Now)
                 (seqZ (k * batchSize + 3) batchSize)))
       (seqZ 0 (Z.of_nat n))) =
  map (bench.series_row time_Now) (seqZ 3 (Z.of_nat n * batchSize)).
Proof.
  intros Hbs. induction n as [|n IH].
  - rewrite !seqZ_nil by lia. reflexivity.
  - rewrite seqZ_S, map_app, flat_map_app, IH. cbn [map flat_map
      bench.batch_rows]. rewrite app_nil_r, <- map_app. f_equal.
    replace (Z.of_nat (S n) * batchSize)
      with (Z.of_nat n * batchSize + batchSize) by lia.
    rewrite seqZ_app by nia. do 2 f_equal. lia.
Qed.

Lemma series_id_row (n : Z) :
  bench.series_id (bench.series_row time_Now n) = Some (uint64_wrap n).
Proof. reflexivity. Qed.

End BenchLoops.

#[local] Arguments bench.upsert_spawns : simpl never.

(** The spawning loop in closed form, with [n] the least number of batches
    that covers [rowsLen] rows. *)
Lemma upsert_spawns_closed_form (time_Now : Z -> Z)
  (rowsLen batchSize n : Z) (fuel : nat) :
  0 < batchSize -> rowsLen + batchSize + 3 < 2 ^ 63 ->
  0 <= n -> (Z.to_nat n <= fuel)%nat ->
  rowsLen <= n * batchSize ->
  (n = 0 \/ (n - 1) * batchSize < rowsLen) ->
  bench.upsert_spawns time_Now fuel 0 rowsLen batchSize =
  map (fun k =>
         bench.ListValue
           (map (bench.series_row time_Now) (seqZ (k * batchSize + 3) batchSize)))
    (seqZ 0 n).
Proof.
  intros Hbs Hbound Hn Hfuel Hup Hlow.
  rewrite (upsert_spawns_from time_Now rowsLen batchSize Hbs Hbound
             (Z.to_nat n) fuel 0); rewrite ?Z2Nat.id by lia; try lia.
  apply map_ext. intros k. do 3 f_equal.
Qed.

(** With the constants of [upsertData]: 25000 batches. *)
Lemma upsert_spawns_code (time_Now : Z -> Z) :
  bench.upsert_spawns time_Now (Z.to_nat 25000000) 0 25000000 1000 =
  map (fun k =>
         bench.ListValue
           (map (bench.series_row time_Now) (seqZ (k * 1000 + 3) 1000)))
    (seqZ 0 25000).
Proof. apply upsert_spawns_closed_form; lia. Qed.

(** X4.  The worker count that [main] computes from the environment variable
    CONCURRENCY is always positive, and it is 300 whenever the variable parses
    as a number: a parsed value is never used.  It differs from 300 only when
    [strconv.Atoi] reports an error together with a positive number, which is
    then the count. *)
Theorem X4_concurrency_ignores_parsed_value
  (Getenv : string -> string) (Atoi : string -> Z * error) :
  let parsed := Atoi (Getenv "CONCURRENCY") in
  0 < bench.concurrency Getenv Atoi /\
  (snd parsed = None -> bench.concurrency Getenv Atoi = 300) /\
  (fst parsed <= 0 -> bench.concurrency Getenv Atoi = 300) /\
  (bench.concurrency Getenv Atoi <> 300 ->
   snd parsed <> None /\ bench.concurrency Getenv Atoi = fst parsed).
Proof.
  cbv zeta. unfold bench.concurrency.
  destruct (Atoi (Getenv "CONCURRENCY")) as [n [e|]]; cbn [fst snd is_nil negb andb].
  - destruct (Z.gtb_spec n 0); repeat split; try lia; try discriminate;
      congruence.
  - repeat split; try lia; congruence.
Qed.

(** X5.  The spawning loop of [upsertData] issues one batch per step of
    [batchSize] below [rowsLen]: as many batches as it takes to cover
    [rowsLen] rows (n, the least number with n * batchSize >= rowsLen), in
    the order k = 0 .. n-1, the k-th batch being a list of exactly
    [batchSize] rows, built from the consecutive numbers k*batchSize+3 ..
    k*batchSize+batchSize+2.  With the constants of the code (25000000 rows
    in batches of 1000) these are 25000 batches of 1000 rows. *)
Theorem X5_upsert_batches_cover_rows (time_Now : Z -> Z)
  (rowsLen batchSize n : Z) (fuel : nat) :
  0 < batchSize -> rowsLen + batchSize + 3 < 2 ^ 63 ->
  0 <= n -> (Z.to_nat n <= fuel)%nat ->
  rowsLen <= n * batchSize ->
  (n = 0 \/ (n - 1) * batchSize < rowsLen) ->
  let spawns := bench.upsert_spawns time_Now fuel 0 rowsLen batchSize in
  spawns =
  map (fun k =>
         bench.ListValue
           (map (bench.series_row time_Now) (seqZ (k * batchSize + 3) batchSize)))
    (seqZ 0 n) /\
  length spawns = Z.to_nat n /\
  Forall (fun batch => length (bench.batch_rows batch) = Z.to_nat batchSize)
    spawns.
Proof.
  intros Hbs Hbound Hn Hfuel Hup Hlow. cbv zeta.
  rewrite (upsert_spawns_closed_form time_Now rowsLen batchSize n fuel)
    by assumption.
  split; [reflexivity|]. split.
  - now rewrite length_map, length_seqZ.
  - apply Forall_map, Forall_forall. intros k _.
    cbn [bench.batch_rows]. now rewrite length_map, length_seqZ.
Qed.

Lemma X5_upsert_batches_cover_rows_witness :
  (0 < 1000 /\ 25000000 + 1000 + 3 < 2 ^ 63 /\ 0 <= 25000 /\
   (Z.to_nat 25000 <= Z.to_nat 25000000)%nat /\
   25000000 <= 25000 * 1000 /\ (25000 - 1) * 1000 < 25000000) /\
  let spawns :=
    bench.upsert_spawns (fun _ => 0) (Z.to_nat 25000000) 0 25000000 1000 in
  length spawns = Z.to_nat 25000 /\
  Forall (fun batch => length (bench.batch_rows batch) = Z.to_nat 1000) spawns.
Proof.
  split; [lia|].
  destruct (X5_upsert_batches_cover_rows (fun _ => 0) 25000000 1000 25000
              (Z.to_nat 25000000)) as (_ & Hlen & Hrows); try lia.
  split; assumption.
Defined.

(** X6.  Over all the batches that [upsertData] spawns, in spawning order, the
    series ids of the rows are the consecutive numbers 3, 4, 5, ... : every
    id from 3 to n*batchSize+2 is upserted exactly once, none twice, and the
    conversion to uint64 never wraps.  With the constants of the code these
    are the 25000000 ids 3 .. 25000002. *)
Theorem X6_upsert_series_ids_consecutive (time_Now : Z -> Z)
  (rowsLen batchSize n : Z) (fuel : nat) :
  0 < batchSize -> rowsLen + batchSize + 3 < 2 ^ 63 ->
  0 <= n -> (Z.to_nat n <= fuel)%nat ->
  rowsLen <= n * batchSize ->
  (n = 0 \/ (n - 1) * batchSize < rowsLen) ->
  let rows :=
    flat_map bench.batch_rows
      (bench.upsert_spawns time_Now fuel 0 rowsLen batchSize) in
  map bench.series_id rows = map Some (seqZ 3 (n * batchSize)) /\
  NoDup (map bench.series_id rows) /\
  length rows = Z.to_nat (n * batchSize).
Proof.
  intros Hbs Hbound Hn Hfuel Hup Hlow. cbv zeta.
  rewrite (upsert_spawns_closed_form time_Now rowsLen batchSize n fuel)
    by assumption.
  pose proof (batches_rows time_Now batchSize (Z.to_nat n)) as Hrows.
  rewrite Z2Nat.id in Hrows by lia. rewrite Hrows by lia. clear Hrows.
  assert (Hids : map bench.series_id
                   (map (bench.series_row time_Now) (seqZ 3 (n * batchSize))) =
                 map Some (seqZ 3 (n * batchSize))).
  { rewrite map_map. apply map_ext_in. intros k Hk.
    rewrite series_id_row. f_equal. apply uint64_wrap_small.
    apply list_elem_of_In, elem_of_seqZ in Hk.
    destruct Hlow as [->|Hlow]; nia. }
  rewrite Hids. split; [reflexivity|]. split.
  - apply (NoDup_fmap_2 Some), NoDup_seqZ.
  - now rewrite length_map, length_seqZ.
Qed.

Lemma X6_upsert_series_ids_consecutive_witness :
  (0 < 1000 /\ 25000000 + 1000 + 3 < 2 ^ 63 /\ 0 <= 25000 /\
   (Z.to_nat 25000 <= Z.to_nat 25000000)%nat /\
   25000000 <= 25000 * 1000 /\ (25000 - 1) * 1000 < 25000000) /\
  map bench.series_id
    (flat_map bench.batch_rows
       (bench.upsert_spawns (fun _ => 0) (Z.to_nat 25000000) 0 25000000 1000)) =
  map Some (seqZ 3 (25000 * 1000)).
Proof.
  split; [lia|].
  destruct (X6_upsert_series_ids_consecutive (fun _ => 0) 25000000 1000 25000
              (Z.to_nat 25000000)) as (Hids & _); try lia.
  exact Hids.
Defined.

Section BenchClient.

Variable DB : Type.
Variable Do : bench.TableOp -> DB -> error * DB.
Variable path_Join : string -> string -> string.
Variable time_Now : Z -> Z.

(** [upsertData] once the table has been dropped and created. *)
Lemma upsertData_after_create (prefix tableName : string) (concurrency : Z)
  (db db1 db2 : DB) :
  Do (bench.DropTable (path_Join prefix tableName)) db = (None, db1) ->
  Do (bench.CreateTable (path_Join prefix tableName) bench.series_options) db1
    = (None, db2) ->
  bench.upsertData DB Do path_Join time_Now prefix tableName concurrency db =
  if concurrency <? 0 then bench.Panicked db2
  else if concurrency =? 0 then bench.Blocked db2
  else
    bench.Done None
      (fold_left
         (fun db rows =>
            snd (Do (bench.BulkUpsert (path_Join prefix tableName) rows) db))
         (bench.upsert_spawns time_Now (Z.to_nat 25000000) 0 25000000 1000)
         db2).
Proof.
  intros Hdrop Hcreate. unfold bench.upsertData.
  rewrite Hdrop. cbv beta iota zeta. cbn [is_nil negb].
  rewrite Hcreate. cbv beta iota zeta. cbn [is_nil negb].
  destruct (concurrency <? 0); [reflexivity|].
  rewrite upsert_spawns_code, (seqZ_cons 0 25000) by lia.
  cbn [map]. reflexivity.
Qed.


Variable Getenv : string -> string.
Variable Atoi : string -> Z * error.
Variable db_Name : string.

(** X8.  [main] never makes [upsertData] panic or block: it calls it only
    when YDB_PREPARE_BENCH_DATA parses without error as a positive number,
    and then the preparation always runs to its end; when the variable does
    not parse, or parses as zero or a negative number, the database is left
    untouched. *)
Theorem X8_prepare_never_panics_or_blocks (db : DB) :
  let parsed := Atoi (Getenv "YDB_PREPARE_BENCH_DATA") in
  let run :=
    bench.prepare_bench_data DB Do path_Join time_Now Getenv Atoi db_Name db in
  (exists db', run = bench.Done tt db') /\
  (snd parsed <> None \/ fst parsed <= 0 -> run = bench.Done tt db) /\
  (snd parsed = None -> 0 < fst parsed ->
   match bench.upsertData DB Do path_Join time_Now db_Name "series"
           (fst parsed) db with
   | bench.Done _ db' => run = bench.Done tt db'
   | _ => False
   end).
Proof.
  cbv zeta. unfold bench.prepare_bench_data.
  destruct (Atoi (Getenv "YDB_PREPARE_BENCH_DATA")) as [c [e|]];
    cbn [fst snd is_nil andb].
  - split; [now exists db|]. split; [reflexivity|discriminate].
  - destruct (Z.gtb_spec c 0) as [Hpos|Hneg].
    + assert (Hrun : exists a db',
                 bench.upsertData DB Do path_Join time_Now db_Name "series" c db
                 = bench.Done a db').
      { destruct (Do (bench.DropTable (path_Join db_Name "series")) db)
          as [[e1|] db1] eqn:Hdrop.
        - exists (Some e1), db1. unfold bench.upsertData. now rewrite Hdrop.
        - destruct (Do (bench.CreateTable (path_Join db_Name "series")
                          bench.series_options) db1) as [[e2|] db2] eqn:Hcreate.
          + exists (Some e2), db2. unfold bench.upsertData.
            rewrite Hdrop. cbv beta iota zeta. cbn [is_nil negb].
            now rewrite Hcreate.
          + rewrite (upsertData_after_create _ _ _ _ _ _ Hdrop Hcreate).
            destruct (Z.ltb_spec c 0); [lia|].
            destruct (Z.eqb_spec c 0); [lia|]. eauto. }
      destruct Hrun as (a & db' & ->).
      split; [now exists db'|]. split; [|reflexivity].
      intros [Hne|Hle]; [congruence|lia].
    + split; [now exists db|]. split; [reflexivity|]. lia.
Qed.

End BenchClient.


Lemma X8_prepare_never_panics_or_blocks_witness :
  let Do := fun (op : bench.TableOp) (db : list bench.TableOp) =>
              (@None string, db ++ [op]) in
  bench.prepare_bench_data (list bench.TableOp) Do String.append (fun _ => 0)
    (fun _ => "0"%string) (fun _ => (0, None)) "/local/" [] =
  bench.Done tt [].
Proof.
  intros Do.
  destruct (X8_prepare_never_panics_or_blocks (list bench.TableOp) Do
              String.append (fun _ => 0) (fun _ => "0"%string)
              (fun _ => (0, None)) "/local/" []) as (_ & Hskip & _).
  apply Hskip. right. cbn. lia.
Defined.

(** ** The closure of [scanSelect] *)

Lemma uint64_wrap_add (a b : Z) :
  uint64_wrap (uint64_wrap a + b) = uint64_wrap (a + b).
Proof. unfold uint64_wrap. apply Zplus_mod_idemp_l. Qed.

Lemma uint64_wrap_range (z : Z) : 0 <= uint64_wrap z < 2 ^ 64.
Proof. unfold uint64_wrap. apply Z.mod_pos_bound. lia. Qed.

(** Rows read without incident only count. *)
Lemma scan_rows_ok (good rest : list bench.ScannedRow) (count : Z) :
  Forall (fun row => bench.row_ok row = true) good ->
  0 <= count < 2 ^ 64 ->
  bench.scan_rows (good ++ rest) count =
  bench.scan_rows rest (uint64_wrap (count + Z.of_nat (length good))).
Proof.
  intros Hgood. revert count.
  induction Hgood as [|row good Hrow _ IH]; intros count Hcount.
  - cbn [app length]. now rewrite Z.add_0_r, uint64_wrap_small.
  - cbn [app bench.scan_rows]. unfold bench.row_ok in Hrow.
    apply andb_true_iff in Hrow as [Herr Hptr]. rewrite Herr. cbn [negb].
    destruct (bench.Scan_id row), (bench.Scan_title row),
      (bench.Scan_date row); try discriminate.
    rewrite IH by apply uint64_wrap_range.
    rewrite uint64_wrap_add. do 2 f_equal. cbn [length]. lia.
Qed.

(** The borders between result sets do not matter. *)
Lemma scan_sets_concat (sets : list (list bench.ScannedRow)) (count : Z) :
  bench.scan_sets sets count = bench.scan_rows (concat sets) count.
Proof.
  revert count. induction sets as [|rows sets IH]; intros count; [reflexivity|].
  cbn [bench.scan_sets concat].
  revert count. induction rows as [|row rows IHrows]; intros count.
  - cbn. apply IH.
  - cbn [app bench.scan_rows].
    destruct (negb (is_nil (bench.Scan_err row))); [reflexivity|].
    destruct (bench.Scan_id row), (bench.Scan_title row), (bench.Scan_date row);
      try reflexivity.
    apply IHrows.
Qed.

(** X9.  What one run of the closure of [scanSelect] returns.  The value that
    [count] had before is discarded.  If the query itself fails, the count is
    0 and the error is the query's.  Otherwise the rows of all result sets
    are read in order: if every row scans without error and leaves no nil
    pointer, the count is the number of rows (modulo 2^64) and the error is
    that of the stream; at the first row whose scan fails the closure returns
    the scan error, and at the first row that scans but leaves a nil pointer
    it panics, in both cases with that row already counted and no later row
    read. *)
Theorem X9_scanSelect_closure_counts_rows
  (res : bench.StreamResult) (count0 : Z) :
  let rows := concat (bench.ResultSets res) in
  (forall response count1,
     bench.scanSelect_op response count0 = bench.scanSelect_op response count1) /\
  (forall e,
     bench.scanSelect_op (res, Some e) count0 = bench.Return 0 (Some e)) /\
  (Forall (fun row => bench.row_ok row = true) rows ->
   bench.scanSelect_op (res, None) count0 =
   bench.Return (uint64_wrap (Z.of_nat (length rows))) (bench.Err res)) /\
  (forall good bad rest,
     rows = good ++ bad :: rest ->
     Forall (fun row => bench.row_ok row = true) good ->
     bench.row_ok bad = false ->
     bench.scanSelect_op (res, None) count0 =
     match bench.Scan_err bad with
     | Some e =>
         bench.Return (uint64_wrap (Z.of_nat (length good) + 1)) (Some e)
     | None => bench.Panic (uint64_wrap (Z.of_nat (length good) + 1))
     end).
Proof.
  cbv zeta. split; [reflexivity|]. split; [reflexivity|]. split.
  - intros Hok. unfold bench.scanSelect_op. cbn [is_nil negb].
    rewrite scan_sets_concat.
    rewrite <- (app_nil_r (concat (bench.ResultSets res))) at 1.
    rewrite scan_rows_ok by (try assumption; lia). cbn [bench.scan_rows].
    now rewrite Z.add_0_l.
  - intros good bad rest Hrows Hgood Hbad.
    unfold bench.scanSelect_op. cbn [is_nil negb].
    rewrite scan_sets_concat, Hrows, scan_rows_ok by (try assumption; lia).
    rewrite Z.add_0_l. cbn [bench.scan_rows].
    rewrite uint64_wrap_add.
    unfold bench.row_ok in Hbad.
    destruct (bench.Scan_err bad) as [e|]; cbn [is_nil negb andb] in *;
      [reflexivity|].
    now destruct (bench.Scan_id bad), (bench.Scan_title bad),
      (bench.Scan_date bad).
Qed.

Lemma X9_scanSelect_closure_counts_rows_witness :
  let ok := {| bench.Scan_err := None; bench.Scan_id := Some 3;
               bench.Scan_title := Some "t"%string;
               bench.Scan_date := Some 0 |} in
  let null := {| bench.Scan_err := None; bench.Scan_id := Some 4;
                 bench.Scan_title := None; bench.Scan_date := Some 0 |} in
  let res := {| bench.ResultSets := [[ok]; [ok; null; ok]];
                bench.Err := None |} in
  bench.scanSelect_op (res, None) 17 = bench.Panic 3.
Proof.
  intros ok null res.
  destruct (X9_scanSelect_closure_counts_rows res 17) as (_ & _ & _ & Hbad).
  apply (Hbad [ok; ok] null [ok]);
    [reflexivity | repeat constructor | reflexivity].
Defined.

Lemma X4_concurrency_ignores_parsed_value_witness :
  snd ((fun _ : string => (64, @None string)) "64"%string) = None /\
  bench.concurrency (fun _ => "64"%string) (fun _ => (64, None)) = 300.
Proof.
  split; [reflexivity|].
  destruct (X4_concurrency_ignores_parsed_value
              (fun _ => "64"%string) (fun _ => (64, None))) as (_ & H300 & _).
  exact (H300 eq_refl).
Defined.

(** ** The terminal continuation of a streaming chain *)

(** X10.  In an enabled streaming chain (scripting stream execute, retry loop)
    every call of the intermediate continuation returns the same terminal
    continuation, whatever the intermediate record and the state of the
    tracer: the terminal continuation depends on the span of the chain only,
    so the driver may keep the one returned by any intermediate call. *)
Theorem X10_terminal_continuation_is_unique
  (scripting_iota retry_iota : N) (sentinel : string) (details : trace.Details) :
  (Z.testbit details (Z.of_N scripting_iota) = true ->
   installed
     (trace.OnStreamExecute (Scripting scripting_iota sentinel details))
     (fun h =>
        forall si t0 i i' t t',
          eval (eval (h si) t0 i) t = eval (eval (h si) t0 i') t')) /\
  (Z.testbit details (Z.of_N retry_iota) = true ->
   installed (trace.OnRetry (Retry retry_iota details))
     (fun h =>
        forall si t0 i i' t t',
          eval (eval (h si) t0 i) t = eval (eval (h si) t0 i') t')).
Proof.
  split; intros H; gate H; cbn [installed]; intros si t0 i i' t t';
    run_handler; reflexivity.
Qed.

Lemma X10_terminal_continuation_is_unique_witness :
  (Z.testbit 3 (Z.of_N 0) = true /\ Z.testbit 3 (Z.of_N 1) = true) /\
  installed (trace.OnRetry (Retry 1 3))
    (fun h =>
       forall t t',
         eval (eval (h retry_start) empty_tracer
                 {| trace.RetryLoopIntermediateInfo.Error := None |}) t =
         eval (eval (h retry_start) empty_tracer
                 {| trace.RetryLoopIntermediateInfo.Error :=
                      Some "x"%string |}) t').
Proof.
  destruct (X10_terminal_continuation_is_unique 0 1 "<failed>" 3) as [_ Hr].
  split; [split; reflexivity|].
  eapply installed_impl; [exact (Hr eq_refl)|].
  intros h _ HP t t'. apply HP.
Defined.
